(** * Upload validation: a shallow embedding of [src/lib/file-validation.ts]

    The validator class [FileValidator] checks an uploaded [File] against a
    size ceiling, a MIME allowlist and an extension allowlist, cleans the
    file name, and finally runs a suffix denylist and a four-byte PDF
    signature test.

    Conventions of the embedding.
    - A JavaScript string is a [string]: each [ascii] stands for one code
      unit in the range U+0000..U+00FF, so the case mapping and the
      whitespace class below are the Latin-1 restrictions of the
      JavaScript ones.
    - JavaScript numbers that hold sizes and indices are integers in [Z];
      the unsigned shift [>>> 0] is written out as reduction modulo 2^32.
    - An [async] function returns a [Promise]: either [Resolved] with a
      value or [Rejected] with the thrown value; [await] is the bind of
      that monad and [try { } catch] is [tryCatch]. *)

From Stdlib Require Import ZArith NArith List Bool Ascii String Lia.
From Stdlib Require Import Strings.Byte DecimalString.
Import ListNotations.

Local Open Scope string_scope.
Local Open Scope Z_scope.

(* ================================================================== *)
(** ** JavaScript string primitives *)

Module JsString.

Definition code (c : ascii) : N := N_of_ascii c.

Definition between (lo hi n : N) : bool := ((lo <=? n) && (n <=? hi))%N.

Fixpoint map (f : ascii -> ascii) (s : string) : string :=
  match s with
  | EmptyString => EmptyString
  | String c s' => String (f c) (map f s')
  end.

(** Upper-case letters of Latin-1: A-Z, U+00C0..U+00D6, U+00D8..U+00DE.
    Each lies 32 below its lower-case form. *)
Definition isUpper (c : ascii) : bool :=
  between 65 90 (code c) || between 192 214 (code c)
  || between 216 222 (code c).

Definition lowerChar (c : ascii) : ascii :=
  if isUpper c then ascii_of_N (code c + 32) else c.

(** [s.toLowerCase()] *)
Definition toLowerCase (s : string) : string := map lowerChar s.

(** [s.length] *)
Definition len (s : string) : Z := Z.of_nat (String.length s).

(** [s.lastIndexOf(c)]: the index of the last occurrence, or -1. *)
Fixpoint lastIndexOf (c : ascii) (s : string) : Z :=
  match s with
  | EmptyString => -1
  | String a s' =>
      let r := lastIndexOf c s' in
      if 0 <=? r then r + 1
      else if Ascii.eqb a c then 0 else -1
  end.

Fixpoint drop (n : nat) (s : string) : string :=
  match n, s with
  | O, _ => s
  | S _, EmptyString => EmptyString
  | S n', String _ s' => drop n' s'
  end.

Fixpoint take (n : nat) (s : string) : string :=
  match n, s with
  | O, _ => EmptyString
  | S _, EmptyString => EmptyString
  | S n', String c s' => String c (take n' s')
  end.

(** [s.slice(start)]: a negative start counts from the end, and the
    start is clamped to the string. *)
Definition slice (start : Z) (s : string) : string :=
  let from :=
    if start <? 0 then Z.max (len s + start) 0 else Z.min start (len s) in
  drop (Z.to_nat from) s.

(** [s.substring(a, b)]: both ends are clamped to the string and
    swapped when out of order. *)
Definition substring (a b : Z) (s : string) : string :=
  let fs := Z.min (Z.max a 0) (len s) in
  let fe := Z.min (Z.max b 0) (len s) in
  let from := Z.min fs fe in
  let to := Z.max fs fe in
  take (Z.to_nat (to - from)) (drop (Z.to_nat from) s).

(** [l.includes(x)] on an array of strings. *)
Definition includes (x : string) (l : list string) : bool :=
  existsb (String.eqb x) l.

(** [l.join(sep)] *)
Definition join (sep : string) (l : list string) : string :=
  String.concat sep l.

(** [n >>> 0]: conversion to an unsigned 32-bit integer. *)
Definition toUint32 (n : Z) : Z := n mod 2 ^ 32.

End JsString.

(* ================================================================== *)
(** ** The regular expressions of the module, as string functions *)

Module Regex.

Definition underscore : ascii := "_"%char.

Definition isUnderscore (c : ascii) : bool := Ascii.eqb c underscore.

(** The class of the first replacement: the characters less-than,
    greater-than, colon, double quote (code 34), slash, backslash,
    bar, question mark and star. *)
Definition isDangerous (c : ascii) : bool :=
  existsb (Ascii.eqb c)
    ["<"; ">"; ":"; "034"; "/"; "\"; "|"; "?"; "*"]%char.

(** The class [\s] below U+0100: tab, line feed, vertical tab, form
    feed, carriage return, space and the no-break space. *)
Definition isSpace (c : ascii) : bool :=
  JsString.between 9 13 (JsString.code c)
  || N.eqb (JsString.code c) 32
  || N.eqb (JsString.code c) 160.

(** [s.replace(/[...]/g, "_")]: each character of the class becomes an
    underscore. *)
Definition replaceClass (cls : ascii -> bool) (s : string) : string :=
  JsString.map (fun c => if cls c then underscore else c) s.

(** [s.replace(/X+/g, "_")] for a character class [X]: every maximal run
    of [X] is replaced by one underscore.  [inRun] tells that the
    previous character belonged to the run being replaced.

    With [X] the underscore itself this is also
    [s.replace(/_{2,}/g, "_")]: a run of two or more underscores is
    replaced by one underscore, and a run of exactly one, which that
    pattern does not match, already is one underscore. *)
Fixpoint replaceRunsFrom (cls : ascii -> bool) (inRun : bool) (s : string)
  : string :=
  match s with
  | EmptyString => EmptyString
  | String c s' =>
      if cls c then
        if inRun then replaceRunsFrom cls true s'
        else String underscore (replaceRunsFrom cls true s')
      else String c (replaceRunsFrom cls false s')
  end.

Definition replaceRuns (cls : ascii -> bool) (s : string) : string :=
  replaceRunsFrom cls false s.

(** The [^_+] alternative: the leading run of underscores. *)
Fixpoint dropLeading (s : string) : string :=
  match s with
  | EmptyString => EmptyString
  | String c s' => if isUnderscore c then dropLeading s' else s
  end.

(** The [_+$] alternative: the trailing run of underscores. *)
Fixpoint dropTrailing (s : string) : string :=
  match s with
  | EmptyString => EmptyString
  | String c s' =>
      match dropTrailing s' with
      | EmptyString => if isUnderscore c then EmptyString
                       else String c EmptyString
      | r => String c r
      end
  end.

(** [s.replace(/^_+|_+$/g, "")]: the scan removes the leading run
    first and then, further right, the run that reaches the end. *)
Definition trimUnderscores (s : string) : string :=
  dropTrailing (dropLeading s).

(** Case-insensitive comparison of a subject character with an ASCII
    pattern character: under the [i] flag only the two ASCII cases of a
    letter match it. *)
Definition upperAscii (c : ascii) : ascii :=
  if JsString.between 97 122 (JsString.code c)
  then ascii_of_N (JsString.code c - 32) else c.

Definition matchCharCI (p c : ascii) : bool :=
  Ascii.eqb (upperAscii p) (upperAscii c).

(** A literal pattern followed by [$], tried at the start of [s]. *)
Fixpoint matchHere (pat s : string) : bool :=
  match pat, s with
  | EmptyString, EmptyString => true
  | String p pat', String c s' => matchCharCI p c && matchHere pat' s'
  | _, _ => false
  end.

(** [/pat$/i.test(s)]: the pattern is tried at every start index. *)
Fixpoint test (pat s : string) : bool :=
  matchHere pat s
  || match s with
     | EmptyString => false
     | String _ s' => test pat s'
     end.

End Regex.

(* ================================================================== *)
(** ** Promises and thrown values *)

(** What a [catch] clause can receive: an [Error] object with its
    message, or some other value. *)
Inductive Thrown : Type :=
| ErrorObject (message : string)
| OtherValue.

Inductive Promise (A : Type) : Type :=
| Resolved (a : A)
| Rejected (e : Thrown).

Arguments Resolved {A} a.
Arguments Rejected {A} e.

Definition await {A B : Type} (p : Promise A) (k : A -> Promise B)
  : Promise B :=
  match p with
  | Resolved a => k a
  | Rejected e => Rejected e
  end.

Notation "x <- p ;; k" := (await p (fun x => k))
  (at level 61, p at next level, right associativity).

Definition tryCatch {A : Type} (body : Promise A)
  (handler : Thrown -> Promise A) : Promise A :=
  match body with
  | Resolved a => Resolved a
  | Rejected e => handler e
  end.

(* ================================================================== *)
(** ** Data model *)

(** What reading the head of a file through a [FileReader] does: the
    [load] event delivers the bytes, the [error] event reports that the
    content cannot be read, or setting the read up throws (for instance
    where no [FileReader] exists), which rejects the promise built
    around it. *)
Inductive ReadOutcome : Type :=
| Loaded (bytes : list byte)
| ReadError
| ReaderThrows (e : Thrown).

Record File : Type := mkFile {
  name : string;
  type : string;
  size : Z;
  content : ReadOutcome
}.

Record FileValidationResult : Type := mkResult {
  isValid : bool;
  error : option string;
  sanitizedFile : option File
}.

(** [FileValidationOptions]: every field may be left out, and [None]
    stands for a key that is absent.  An option written out as
    [undefined], which the optional field types also admit, is outside
    this record: the spread of the constructor would copy it over the
    default, and the gate that reads it would throw inside the [try]
    block. *)
Record FileValidationOptions : Type := mkPartialOptions {
  opt_maxSizeBytes : option Z;
  opt_allowedTypes : option (list string);
  opt_allowedExtensions : option (list string);
  opt_scanForMalware : option bool
}.

(** [Required<FileValidationOptions>] *)
Record Options : Type := mkOptions {
  maxSizeBytes : Z;
  allowedTypes : list string;
  allowedExtensions : list string;
  scanForMalware : bool
}.

Definition DEFAULT_OPTIONS : Options := {|
  maxSizeBytes := 10 * 1024 * 1024;
  allowedTypes :=
    ["application/pdf"; "image/jpeg"; "image/png"; "image/gif"; "image/webp"];
  allowedExtensions := [".pdf"; ".jpg"; ".jpeg"; ".png"; ".gif"; ".webp"];
  scanForMalware := false
|}.

(** The constructor: [{ ...DEFAULT_OPTIONS, ...options }]. *)
Definition FileValidator (options : FileValidationOptions) : Options := {|
  maxSizeBytes :=
    match opt_maxSizeBytes options with
    | Some v => v | None => maxSizeBytes DEFAULT_OPTIONS end;
  allowedTypes :=
    match opt_allowedTypes options with
    | Some v => v | None => allowedTypes DEFAULT_OPTIONS end;
  allowedExtensions :=
    match opt_allowedExtensions options with
    | Some v => v | None => allowedExtensions DEFAULT_OPTIONS end;
  scanForMalware :=
    match opt_scanForMalware options with
    | Some v => v | None => scanForMalware DEFAULT_OPTIONS end
|}.

(** [new FileValidator()], the exported instance. *)
Definition fileValidator : Options :=
  FileValidator (mkPartialOptions None None None None).

(** The three shapes of result the module builds. *)
Definition invalid (msg : string) : FileValidationResult :=
  {| isValid := false; error := Some msg; sanitizedFile := None |}.

Definition valid : FileValidationResult :=
  {| isValid := true; error := None; sanitizedFile := None |}.

Definition validRenamed (f : File) : FileValidationResult :=
  {| isValid := true; error := None; sanitizedFile := Some f |}.

(** [new File([file], newName, { type: t })]: the same bytes under
    another name.  A [File]'s own [type] is already in the normal form
    the constructor would give it. *)
Definition newFile (file : File) (newName t : string) : File :=
  {| name := newName; type := t; size := size file; content := content file |}.

(* ================================================================== *)
(** ** The private helpers of [FileValidator] *)

(** [filename.slice((filename.lastIndexOf('.') - 1 >>> 0) + 2)] *)
Definition getFileExtension (filename : string) : string :=
  JsString.slice
    (JsString.toUint32 (JsString.lastIndexOf "."%char filename - 1) + 2)
    filename.

Definition sanitizeFileName (filename : string) : string :=
  JsString.substring 0 255
    (Regex.trimUnderscores
       (Regex.replaceRuns Regex.isUnderscore
          (Regex.replaceRuns Regex.isSpace
             (Regex.replaceClass Regex.isDangerous filename)))).

Definition suspiciousPatterns : list string :=
  [".exe"; ".bat"; ".cmd"; ".scr"; ".pif"; ".com"; ".vbs"; ".js"; ".jar"].

(** [String.fromCharCode(...new Uint8Array(buffer.slice(0, 4)))] of the
    buffer read from [file.slice(0, 4)]. *)
Definition headerOf (bytes : list byte) : string :=
  string_of_list_byte (firstn 4 (firstn 4 bytes)).

Definition validatePdfHeader (file : File) : Promise bool :=
  match content file with
  | Loaded bytes => Resolved (headerOf bytes =? "%PDF")%string
  | ReadError => Resolved false
  | ReaderThrows e => Rejected e
  end.

Definition securityMessage : string :=
  "File type not allowed for security reasons".

Definition pdfMessage : string := "Invalid PDF file format".

Definition performSecurityChecks (file : File)
  : Promise FileValidationResult :=
  if existsb (fun pattern => Regex.test pattern (name file))
       suspiciousPatterns
  then Resolved (invalid securityMessage)
  else if (type file =? "application/pdf")%string then
    isValidPdf <- validatePdfHeader file ;;
    if negb isValidPdf then Resolved (invalid pdfMessage)
    else Resolved valid
  else Resolved valid.

(** The message of the catch clause:
    [error instanceof Error ? error.message : 'Unknown error']. *)
Definition failureMessage (e : Thrown) : string :=
  "File validation failed: "
  ++ match e with
     | ErrorObject message => message
     | OtherValue => "Unknown error"
     end.

(** The catch clause of [validateFile]. *)
Definition catchClause (e : Thrown) : Promise FileValidationResult :=
  Resolved (invalid (failureMessage e)).

Section Validator.

(** [formatBytes] renders the size ceiling with floating-point
    logarithms and [toFixed]; it only feeds the text of the size
    message and is kept abstract. *)
Variable formatBytes : Z -> string.

(** [this.options] *)
Variable options : Options.

Definition sizeMessage : string :=
  "File size exceeds limit. Maximum allowed: "
  ++ formatBytes (maxSizeBytes options).

Definition typeMessage (file : File) : string :=
  "Unsupported file type: " ++ type file ++ ". Allowed types: "
  ++ JsString.join ", " (allowedTypes options).

Definition extensionMessage (extension : string) : string :=
  "Unsupported file extension: " ++ extension
  ++ ". Allowed extensions: "
  ++ JsString.join ", " (allowedExtensions options).

(** The body of the [try] block. *)
Definition validateFileBody (file : File) : Promise FileValidationResult :=
  (* 1. Check file size *)
  if maxSizeBytes options <? size file then
    Resolved (invalid sizeMessage)
  (* 2. Check file type *)
  else if negb (JsString.includes (type file) (allowedTypes options)) then
    Resolved (invalid (typeMessage file))
  else
    (* 3. Check file extension *)
    let extension := getFileExtension (name file) in
    if negb (JsString.includes (JsString.toLowerCase extension)
               (allowedExtensions options)) then
      Resolved (invalid (extensionMessage extension))
    else
      (* 4. Validate file name (sanitize) *)
      let sanitizedName := sanitizeFileName (name file) in
      if negb (sanitizedName =? name file)%string then
        Resolved (validRenamed (newFile file sanitizedName (type file)))
      else
        (* 5. Additional security checks *)
        securityCheck <- performSecurityChecks file ;;
        if negb (isValid securityCheck) then Resolved securityCheck
        else Resolved valid.

Definition validateFile (file : File) : Promise FileValidationResult :=
  tryCatch (validateFileBody file) catchClause.

End Validator.

(** An exact-arithmetic reading of [formatBytes], for concrete runs of
    the validator: the index is the true floor of the base-1024
    logarithm and the quotient is rounded to hundredths, ties upwards,
    then printed without trailing zeros as number-to-string conversion
    does.  A negative argument gives [NaN] and an undefined unit.

    The code takes the floor of a quotient of two floating-point
    logarithms instead, and the two differ where that quotient rounds
    across an integer: at 2^50 - 1 the code prints [1 undefined] and
    this function [1024 undefined].  For that reason no statement
    below is about the text this function prints: the properties are
    stated for an arbitrary renderer, and the concrete runs, which need
    some renderer, never reach the size message. *)
Module FormatBytes.

Definition sizes : list string := ["Bytes"; "KB"; "MB"; "GB"].

Definition digits (n : Z) : string :=
  DecimalString.NilZero.string_of_uint (N.to_uint (Z.to_N n)).

(** The decimal form of [h / 100]. *)
Definition hundredths (h : Z) : string :=
  let whole := digits (h / 100) in
  let frac := h mod 100 in
  if frac =? 0 then whole
  else if frac mod 10 =? 0 then whole ++ "." ++ digits (frac / 10)
  else whole ++ "." ++ digits (frac / 10) ++ digits (frac mod 10).

Definition formatBytes (bytes : Z) : string :=
  if bytes =? 0 then "0 Bytes"
  else if bytes <? 0 then "NaN undefined"
  else
    let i := Z.log2 bytes / 10 in
    let unit := 1024 ^ i in
    hundredths ((200 * bytes + unit) / (2 * unit))
    ++ " " ++ nth (Z.to_nat i) sizes "undefined".

End FormatBytes.

(* ================================================================== *)
(** ** Predicates used in the statements *)

(** [contains c s]: the code unit [c] occurs in [s]. *)
Fixpoint contains (c : ascii) (s : string) : bool :=
  match s with
  | EmptyString => false
  | String a s' => Ascii.eqb a c || contains c s'
  end.

(** Every code unit of [s] satisfies [p]. *)
Fixpoint allChars (p : ascii -> bool) (s : string) : bool :=
  match s with
  | EmptyString => true
  | String a s' => p a && allChars p s'
  end.

Definition startsWithUnderscore (s : string) : bool :=
  match s with
  | String a _ => Regex.isUnderscore a
  | EmptyString => false
  end.

Fixpoint endsWithUnderscore (s : string) : bool :=
  match s with
  | EmptyString => false
  | String a EmptyString => Regex.isUnderscore a
  | String _ s' => endsWithUnderscore s'
  end.

(** No two neighbouring underscores. *)
Fixpoint noUnderscoreRun (s : string) : bool :=
  match s with
  | EmptyString => true
  | String a s' =>
      negb (Regex.isUnderscore a && startsWithUnderscore s')
      && noUnderscoreRun s'
  end.

Definition notDangerous (c : ascii) : bool := negb (Regex.isDangerous c).
Definition notSpace (c : ascii) : bool := negb (Regex.isSpace c).

(** The shape every cleaned name has, the trailing end apart. *)
Definition tidy (s : string) : bool :=
  allChars notDangerous s && allChars notSpace s
  && noUnderscoreRun s && negb (startsWithUnderscore s).

(** The name after the four replacements, before truncation. *)
Definition cleaned (x : string) : string :=
  Regex.trimUnderscores
    (Regex.replaceRuns Regex.isUnderscore
       (Regex.replaceRuns Regex.isSpace
          (Regex.replaceClass Regex.isDangerous x))).

(** The three gates that precede the renaming step. *)
Definition passesSize (o : Options) (f : File) : Prop :=
  size f <= maxSizeBytes o.

Definition passesType (o : Options) (f : File) : Prop :=
  JsString.includes (type f) (allowedTypes o) = true.

Definition passesExtension (o : Options) (f : File) : Prop :=
  JsString.includes (JsString.toLowerCase (getFileExtension (name f)))
    (allowedExtensions o) = true.

(** The name matches one of the denylist patterns. *)
Definition matchesDenylist (filename : string) : bool :=
  existsb (fun pattern => Regex.test pattern filename) suspiciousPatterns.

(** The signature every PDF starts with, as bytes. *)
Definition pdfMagic : list byte := [x25; x50; x44; x46].

(** A string of [n] copies of [c]. *)
Fixpoint replicate (n : nat) (c : ascii) : string :=
  match n with
  | O => EmptyString
  | S n' => String c (replicate n' c)
  end.

(** *** Inputs for the concrete runs *)

Definition pdfBytes : list byte := list_byte_of_string "%PDF-1.4".

(** The first bytes of a JPEG image. *)
Definition jpegBytes : list byte := [xff; xd8; xff; xe0; x00; x10].

(** A validator that takes PDFs by their bare extension. *)
Definition pdfOnly : Options := {|
  maxSizeBytes := 10 * 1024 * 1024;
  allowedTypes := ["application/pdf"];
  allowedExtensions := ["pdf"];
  scanForMalware := false
|}.

(** A validator whose allowlists also name an executable kind. *)
Definition scriptsToo : Options := {|
  maxSizeBytes := 10 * 1024 * 1024;
  allowedTypes := ["application/pdf"; "application/octet-stream"];
  allowedExtensions := ["pdf"; "js"; "exe"];
  scanForMalware := false
|}.

(** A validator whose extension allowlist holds the empty string. *)
Definition bareNames : Options := {|
  maxSizeBytes := 10 * 1024 * 1024;
  allowedTypes := ["text/plain"];
  allowedExtensions := [""];
  scanForMalware := false
|}.

(** A well-formed PDF upload. *)
Definition goodPdf : File :=
  mkFile "file.pdf" "application/pdf" 1024 (Loaded pdfBytes).

(** A file that both late checks would turn away, under a name that
    needs cleaning: the name ends in [.js] and reading the content
    throws. *)
Definition scriptFile : File :=
  mkFile "my script.js" "application/pdf" 1024
    (ReaderThrows (ErrorObject "FileReader is not defined")).

(** A PDF upload under a name that needs cleaning. *)
Definition spacedPdf : File :=
  mkFile "My File <v2>.pdf" "application/pdf" 1024 (Loaded pdfBytes).

(** The double-extension name of the denylist example. *)
Definition invoiceExe : File :=
  mkFile "invoice.pdf.exe" "application/pdf" 1024 (Loaded pdfBytes).

(** A JPEG image declared and named as a PDF. *)
Definition jpegAsPdf : File :=
  mkFile "photo.pdf" "application/pdf" 1024 (Loaded jpegBytes).

(** A text file whose name has no extension. *)
Definition noext : File :=
  mkFile "noext" "text/plain" 5 (Loaded (list_byte_of_string "hello")).

(** 254 letters, an underscore and one more letter: truncation to 255
    code units cuts right after the underscore. *)
Definition longName : string := replicate 254 "a" ++ "_b".

(** A PDF whose name, 300 letters and the extension, is longer than
    the 255 code units that sanitization keeps. *)
Definition longPdf : File :=
  mkFile (replicate 300 "a" ++ ".pdf") "application/pdf" 1024
    (Loaded pdfBytes).

(* ================================================================== *)
(** ** Further vocabulary for the validator *)

(** A code unit that the cleaning steps turn into an underscore or that
    is one already. *)
Definition blank (c : ascii) : bool :=
  Regex.isDangerous c || Regex.isSpace c || Regex.isUnderscore c.

(** A lower-case ASCII letter. *)
Definition isLowerAscii (c : ascii) : bool :=
  JsString.between 97 122 (JsString.code c).

(** The extensions that the denylist patterns end in, and the empty
    extension of a name that is nothing but such a suffix. *)
Definition executableExtensions : list string :=
  ["exe"; "bat"; "cmd"; "scr"; "pif"; "com"; "vbs"; "js"; "jar"; ""].

(** The same file with another content. *)
Definition withContent (f : File) (c : ReadOutcome) : File :=
  {| name := name f; type := type f; size := size f; content := c |}.

(** The default validator with only its size ceiling raised to 50 MB. *)
Definition fiftyMegabytes : Options :=
  FileValidator
    (mkPartialOptions (Some (50 * 1024 * 1024)) None None None).

(** An image upload with a clean name. *)
Definition photoPng : File :=
  mkFile "photo.png" "image/png" 2048 (Loaded jpegBytes).

(** A validator for images by their bare extensions. *)
Definition imagesOnly : Options := {|
  maxSizeBytes := 10 * 1024 * 1024;
  allowedTypes := ["image/jpeg"; "image/png"];
  allowedExtensions := ["jpg"; "jpeg"; "png"];
  scanForMalware := false
|}.


(* ================================================================== *)
(** ** The upload zone ([src/components/UploadZone.tsx]) *)

(** [UploadedFile].  The upload time, a [Date], is its millisecond
    count; the fields marked optional in the interface are options. *)
Record UploadedFile : Type := mkUploadedFile {
  uf_id : string;
  uf_file : File;
  uf_preview : string;
  uf_processed : option bool;
  uf_progress : option Z;
  uf_error : option string;
  uf_size : Z;
  uf_uploadedAt : Z;
  uf_validationResult : option FileValidationResult
}.

(** What one pass of the loop of [handleFileUpload] draws from its
    surroundings: the identifier built from the clock and the random
    generator, and the time at which an entry is pushed. *)
Record Tick : Type := mkTick {
  fileId : string;
  pushedAt : Z
}.

(** What one pass of the loop leaves behind: an entry pushed onto
    [uploadedFiles] before the pass ends, or a [FileReader] started on
    the file to use, whose events push an entry later on. *)
Inductive UploadStep : Type :=
| Recorded (entry : UploadedFile)
| ReadStarted (id : string) (fileToUse : File)
    (validationResult : FileValidationResult).

Section UploadZone.

Variable formatBytes : Z -> string.

(** One pass of the [for] loop.  The validator is the exported default
    instance.  A throw inside the [try] block, from the validation or
    from setting up the reader, ends in the entry of the [catch]
    clause. *)
Definition uploadOne (file : File) (t : Tick) : UploadStep :=
  let uploadFailed :=
    {| uf_id := fileId t; uf_file := file; uf_preview := "";
       uf_processed := None; uf_progress := None;
       uf_error := Some "Upload failed";
       uf_size := size file; uf_uploadedAt := pushedAt t;
       uf_validationResult := None |} in
  match validateFile formatBytes fileValidator file with
  | Resolved validationResult =>
      if negb (isValid validationResult) then Recorded
          {| uf_id := fileId t; uf_file := file; uf_preview := "";
             uf_processed := None; uf_progress := None;
             uf_error := error validationResult;
             uf_size := size file; uf_uploadedAt := pushedAt t;
             uf_validationResult := Some validationResult |}
      else
        (* validationResult.sanitizedFile || file *)
        let fileToUse :=
          match sanitizedFile validationResult with
          | Some sanitized => sanitized
          | None => file
          end in
        match content fileToUse with
        | ReaderThrows _ => Recorded uploadFailed
        | _ => ReadStarted (fileId t) fileToUse validationResult
        end
  | Rejected _ => Recorded uploadFailed
  end.

(** [handleFileUpload] up to the end of its loop: [None] when more
    files than [maxFiles] were handed in, in which case the function
    warns and returns and [onFilesUploaded] is never called. *)
Definition handleFileUpload (maxFiles : Z) (files : list (File * Tick))
  : option (list UploadStep) :=
  if maxFiles <? Z.of_nat (List.length files) then None
  else Some (List.map (fun ft => uploadOne (fst ft) (snd ft)) files).

End UploadZone.

(* ================================================================== *)
(** ** The processing timeline ([ProcessingTimeline]) *)

Inductive StepStatus : Type :=
| StatusPending
| StatusActive
| StatusCompleted
| StatusError.

(** [ProcessingStep]; the icon, a component, is kept by its name. *)
Record ProcessingStep : Type := mkStep {
  step_id : string;
  step_name : string;
  step_description : string;
  step_icon : string;
  step_status : StepStatus;
  step_duration : option Z;
  step_error : option string
}.

(** A [Set<string>] by its members in insertion order. *)
Definition setHas (x : string) (s : list string) : bool :=
  existsb (String.eqb x) s.

Definition setAdd (x : string) (s : list string) : list string :=
  if setHas x s then s else s ++ [x].

(** The loop of the effect,
    [for (let i = 0; i < currentStep; i++) add(steps[i].id)],
    with [n] passes left to run over the steps from index [i] on.
    Past the end of the array [steps[i]] is undefined and reading its
    [id] throws: [None]. *)
Fixpoint completedLoop (steps : list ProcessingStep) (n : nat)
  (acc : list string) {struct n} : option (list string) :=
  match n with
  | O => Some acc
  | S n' =>
      match steps with
      | [] => None
      | step :: rest => completedLoop rest n' (setAdd (step_id step) acc)
      end
  end.

(** The value the effect stores in [completedSteps]. *)
Definition completedStepsEffect (steps : list ProcessingStep)
  (currentStep : Z) : option (list string) :=
  completedLoop steps (Z.to_nat currentStep) [].

Definition getStepStatus (completedSteps errorSteps : list string)
  (currentStep : Z) (isProcessing : bool)
  (step : ProcessingStep) (index : Z) : StepStatus :=
  let isCompleted := setHas (step_id step) completedSteps in
  let hasError := setHas (step_id step) errorSteps in
  let isActive := (index =? currentStep - 1) && isProcessing in
  if hasError then StatusError
  else if isCompleted then StatusCompleted
  else if isActive then StatusActive
  else StatusPending.

Definition defaultProcessingSteps : list ProcessingStep :=
  [ mkStep "upload" "File Upload" "Validating and uploading documents"
      "FileText" StatusPending None None;
    mkStep "analysis" "Document Analysis"
      "Analyzing document structure and content"
      "BarChart3" StatusPending None None;
    mkStep "conversion" "Format Conversion" "Converting to DOCX format"
      "RefreshCw" StatusPending None None;
    mkStep "bates" "Bates Numbering"
      "Applying Bates stamps for legal tracking"
      "Shield" StatusPending None None;
    mkStep "renaming" "File Renaming"
      "Renaming files according to business rules"
      "Zap" StatusPending None None;
    mkStep "generation" "PDF Generation"
      "Generating structured PDF with stamps"
      "FileText" StatusPending None None;
    mkStep "logging" "Log Generation"
      "Creating processing logs and reports"
      "BarChart3" StatusPending None None;
    mkStep "completion" "Finalization" "Preparing files for download"
      "Download" StatusPending None None ].

(* ================================================================== *)
(** ** The page component: its own upload check and the selection *)

(** The literals that the pattern
    [/(application\/pdf|image\/(jpeg|jpg|png|gif|webp))/] stands for. *)
Definition supportedTypeLiterals : list string :=
  ["application/pdf"; "image/jpeg"; "image/jpg"; "image/png";
   "image/gif"; "image/webp"].

(** An unanchored search: some literal starts at some index of [s]. *)
Fixpoint searchAny (literals : list string) (s : string) : bool :=
  existsb (fun l => String.prefix l s) literals
  || match s with
     | EmptyString => false
     | String _ s' => searchAny literals s'
     end.

(** [file.type.match(...)] is not [null]. *)
Definition typeSupported (t : string) : bool :=
  searchAny supportedTypeLiterals t.

(** The two checks at the head of the page's own [handleFileUpload]:
    the error recorded for the file, if any. *)
Definition pageUploadError (file : File) : option string :=
  if negb (typeSupported (type file)) then
    Some "Unsupported file format. Please use PDF, JPG, PNG, GIF, or WebP."
  else if 50 * 1024 * 1024 <? size file then
    Some "File too large. Maximum size is 50MB."
  else None.

(** Truthiness of [file.error]: an absent or empty message is no
    error. *)
Definition hasError (f : UploadedFile) : bool :=
  match uf_error f with
  | Some msg => negb (msg =? "")%string
  | None => false
  end.

(** [removeFile] on the two pieces of state it updates. *)
Definition removeFile (fileId : string)
  (uploadedFiles : list UploadedFile) (selectedFiles : list string)
  : list UploadedFile * list string :=
  (filter (fun file => negb (uf_id file =? fileId)%string) uploadedFiles,
   filter (fun id => negb (id =? fileId)%string) selectedFiles).

Definition toggleFileSelection (fileId : string) (prev : list string)
  : list string :=
  if JsString.includes fileId prev
  then filter (fun id => negb (id =? fileId)%string) prev
  else prev ++ [fileId].

Definition selectAllFiles (uploadedFiles : list UploadedFile)
  : list string :=
  List.map uf_id (filter (fun file => negb (hasError file)) uploadedFiles).

(** The selection names only uploaded files. *)
Definition selectionWithinUploads (uploadedFiles : list UploadedFile)
  (selectedFiles : list string) : Prop :=
  forall id, In id selectedFiles ->
             exists file, In file uploadedFiles /\ uf_id file = id.

(** [s.padStart(targetLength, padString)]: the filler repeats
    [padString], cut to the missing length, and goes in front. *)
Fixpoint filler (n : nat) (padString rest : string) : string :=
  match n with
  | O => EmptyString
  | S n' =>
      match rest with
      | String c rest' => String c (filler n' padString rest')
      | EmptyString =>
          match padString with
          | String c rest' => String c (filler n' padString rest')
          | EmptyString => EmptyString
          end
      end
  end.

Definition padStart (targetLength : Z) (padString s : string) : string :=
  if targetLength <=? JsString.len s then s
  else if (padString =? "")%string then s
  else filler (Z.to_nat (targetLength - JsString.len s)) padString padString
       ++ s.

(* ================================================================== *)
(** ** The processing history kept in local storage ([mockApi]) *)

Inductive SessionStatus : Type :=
| SessionCompleted
| SessionFailed
| SessionCancelled.

Record ProcessingHistory : Type := mkHistory {
  ph_id : string;
  ph_timestamp : Z;
  ph_filesCount : Z;
  ph_status : SessionStatus;
  ph_duration : Z;
  ph_userId : option string;
  ph_workspaceId : option string
}.

Record ProcessingHistoryCreate : Type := mkHistoryCreate {
  phc_filesCount : Z;
  phc_status : SessionStatus;
  phc_duration : Z;
  phc_userId : option string;
  phc_workspaceId : option string
}.

(** The item [processingHistory] of local storage: [None] when
    [getItem] gives [null], else the array its JSON text encodes. *)
Definition HistoryStorage : Type := option (list ProcessingHistory).

(** [{ id, timestamp: new Date(), ...data }] *)
Definition newHistoryEntry (id : string) (now : Z)
  (data : ProcessingHistoryCreate) : ProcessingHistory :=
  {| ph_id := id; ph_timestamp := now;
     ph_filesCount := phc_filesCount data;
     ph_status := phc_status data;
     ph_duration := phc_duration data;
     ph_userId := phc_userId data;
     ph_workspaceId := phc_workspaceId data |}.

(** [mockApi.createHistory]: the entry it returns and the storage it
    leaves.  [hasWindow] tells whether [window] is defined; [id] and
    [now] are the identifier and the time the call draws. *)
Definition createHistory (hasWindow : bool) (id : string) (now : Z)
  (data : ProcessingHistoryCreate) (stored : HistoryStorage)
  : ProcessingHistory * HistoryStorage :=
  let newHistory := newHistoryEntry id now data in
  (newHistory,
   if hasWindow then
     (* JSON.parse(localStorage.getItem('processingHistory') || '[]') *)
     let existing := match stored with Some l => l | None => [] end in
     (* existing.unshift(newHistory) *)
     let existing := newHistory :: existing in
     (* if (existing.length > 50) existing.splice(50) *)
     let existing :=
       if (50 <? List.length existing)%nat then firstn 50 existing
       else existing in
     Some existing
   else stored).

(** [mockApi.getHistory]: the stored entries, or two sample entries
    dated one and two days back when nothing is stored. *)
Definition getHistory (hasWindow : bool) (now : Z) (userId : option string)
  (stored : HistoryStorage) : list ProcessingHistory :=
  let samples :=
    [ mkHistory "1" (now - 86400000) 3 SessionCompleted 45000 userId None;
      mkHistory "2" (now - 172800000) 1 SessionCompleted 23000 userId None ]
  in
  if hasWindow then
    match stored with
    | Some l => l
    | None => samples
    end
  else samples.

(** A run of [createHistory] calls in a browser, one after the other. *)
Fixpoint createHistories (requests : list (string * Z * ProcessingHistoryCreate))
  (stored : HistoryStorage) : HistoryStorage :=
  match requests with
  | [] => stored
  | (id, now, data) :: rest =>
      createHistories rest (snd (createHistory true id now data stored))
  end.

(* ================================================================== *)
(** ** The logger and its stored log ([logger]) *)

Inductive LogLevel : Type := DEBUG | INFO | WARN | ERROR.

(** [LogEntry]; the context object is kept by its JSON text. *)
Record LogEntry : Type := mkLogEntry {
  log_timestamp : string;
  log_level : LogLevel;
  log_message : string;
  log_context : option string;
  log_userId : option string;
  log_sessionId : option string
}.

(** One call of a [console] method: the method, the text and the
    context handed over. *)
Record ConsoleCall : Type := mkConsoleCall {
  console_method : LogLevel;
  console_text : string;
  console_context : option string
}.

(** The item [processingLogs] of local storage: absent, the array its
    JSON text encodes, or a text that [JSON.parse] rejects. *)
Inductive LogStorage : Type :=
| NoLogs
| StoredLogs (logs : list LogEntry)
| CorruptLogs.

Record LoggerState : Type := mkLoggerState {
  console : list ConsoleCall;
  storage : LogStorage
}.

(** [l.slice(-n)]: the last [n] elements. *)
Definition lastN {A : Type} (n : nat) (l : list A) : list A :=
  skipn (List.length l - n) l.

Section Logger.

(** [typeof window !== 'undefined'] and
    [process.env.NODE_ENV === 'development']. *)
Variable hasWindow : bool.
Variable development : bool.

Definition emit (method : LogLevel) (tag message : string)
  (context : option string) (st : LoggerState) : LoggerState :=
  {| console := console st ++ [mkConsoleCall method (tag ++ message) context];
     storage := storage st |}.

Definition logger_debug (message : string) (context : option string)
  (st : LoggerState) : LoggerState :=
  if development then emit DEBUG "[DEBUG] " message context st else st.

Definition logger_info (message : string) (context : option string)
  (st : LoggerState) : LoggerState :=
  emit INFO "[INFO] " message context st.

Definition logger_warn (message : string) (context : option string)
  (st : LoggerState) : LoggerState :=
  emit WARN "[WARN] " message context st.

Definition logger_error (message : string) (context : option string)
  (st : LoggerState) : LoggerState :=
  emit ERROR "[ERROR] " message context st.

(** [logger.log]; [timestamp] is the ISO text of the current time.  A
    stored text that does not parse makes the [try] block throw, and
    the empty [catch] leaves the storage as it is. *)
Definition logger_log (timestamp : string) (level : LogLevel)
  (message : string) (context : option string) (st : LoggerState)
  : LoggerState :=
  let logEntry := mkLogEntry timestamp level message context None None in
  let st :=
    match level with
    | DEBUG => logger_debug message context st
    | INFO => logger_info message context st
    | WARN => logger_warn message context st
    | ERROR => logger_error message context st
    end in
  if hasWindow && development then
    match storage st with
    | CorruptLogs => st
    | NoLogs =>
        {| console := console st;
           storage := StoredLogs (lastN 100 ([] ++ [logEntry])) |}
    | StoredLogs logs =>
        {| console := console st;
           storage := StoredLogs (lastN 100 (logs ++ [logEntry])) |}
    end
  else st.

(** [logger.getLogs] *)
Definition logger_getLogs (st : LoggerState) : list LogEntry :=
  if hasWindow then
    match storage st with
    | StoredLogs logs => logs
    | NoLogs => []
    | CorruptLogs => []
    end
  else [].

(** [logger.clearLogs] *)
Definition logger_clearLogs (st : LoggerState) : LoggerState :=
  if hasWindow then {| console := console st; storage := NoLogs |} else st.

End Logger.

(* ================================================================== *)
(** ** Facts about the string primitives *)

Module JsStringFacts.
Import JsString.

Lemma len_nonneg s : 0 <= len s.
Proof. unfold len; lia. Qed.

Lemma len_String c s : len (String c s) = len s + 1.
Proof. unfold len; cbn [String.length]; lia. Qed.

Lemma map_length f s : String.length (map f s) = String.length s.
Proof. induction s; cbn; congruence. Qed.

Lemma drop_empty n : drop n EmptyString = EmptyString.
Proof. destruct n; reflexivity. Qed.

Lemma drop_all n s : (String.length s <= n)%nat -> drop n s = EmptyString.
Proof.
  revert s; induction n as [|n IH]; intros [|c s] H; cbn in *;
    try reflexivity; try lia.
  apply IH; lia.
Qed.

Lemma drop_length n s :
  String.length (drop n s) = (String.length s - n)%nat.
Proof.
  revert s; induction n as [|n IH]; intros [|c s]; cbn; auto.
Qed.

Lemma drop_drop n m s : drop n (drop m s) = drop (m + n) s.
Proof.
  revert s; induction m as [|m IH]; intros s; cbn.
  - reflexivity.
  - destruct s; [apply drop_empty | apply IH].
Qed.

Lemma take_length n s :
  String.length (take n s) = Nat.min n (String.length s).
Proof.
  revert s; induction n as [|n IH]; intros [|c s]; cbn; auto.
Qed.

Lemma take_all n s : (String.length s <= n)%nat -> take n s = s.
Proof.
  revert s; induction n as [|n IH]; intros [|c s] H; cbn in *;
    try reflexivity; try lia.
  f_equal; apply IH; lia.
Qed.

Lemma take_min n s : take (Nat.min n (String.length s)) s = take n s.
Proof.
  revert s; induction n as [|n IH]; intros [|c s]; cbn; auto.
  f_equal; apply IH.
Qed.

(** [substring(0, n)] keeps the first [n] code units. *)
Lemma substring_prefix n s :
  0 <= n -> substring 0 n s = take (Z.to_nat n) s.
Proof.
  intros Hn. unfold substring.
  pose proof (len_nonneg s) as Hl.
  rewrite Z.max_id, (Z.min_l 0 (len s)) by assumption.
  rewrite (Z.max_l n 0) by assumption.
  rewrite (Z.min_l 0), (Z.max_r 0) by lia.
  cbn [Z.to_nat drop]. rewrite Z.sub_0_r.
  unfold len. rewrite Z2Nat.inj_min, Nat2Z.id. apply take_min.
Qed.

Lemma contains_drop c n s :
  contains c s = false -> contains c (drop n s) = false.
Proof.
  revert s; induction n as [|n IH]; intros [|a s] H; cbn in *; auto.
  apply orb_false_iff in H; apply IH; tauto.
Qed.

Lemma lastIndexOf_bounds c s : -1 <= lastIndexOf c s < len s.
Proof.
  induction s as [|a s IH]; cbn [lastIndexOf].
  - unfold len; cbn; lia.
  - rewrite len_String.
    destruct (0 <=? lastIndexOf c s) eqn:E; [lia|].
    destruct (Ascii.eqb a c); lia.
Qed.

Lemma lastIndexOf_absent c s :
  contains c s = false -> lastIndexOf c s = -1.
Proof.
  induction s as [|a s IH]; cbn; intros H; [reflexivity|].
  apply orb_false_iff in H as [Ha Hs].
  rewrite (IH Hs), Ha. reflexivity.
Qed.

(** Nothing after the last occurrence of [c] is a [c]. *)
Lemma lastIndexOf_suffix c s :
  contains c (drop (Z.to_nat (lastIndexOf c s + 1)) s) = false.
Proof.
  induction s as [|a s IH]; [reflexivity|].
  cbn [lastIndexOf].
  pose proof (lastIndexOf_bounds c s) as B.
  destruct (0 <=? lastIndexOf c s) eqn:E.
  - apply Z.leb_le in E.
    replace (Z.to_nat (lastIndexOf c s + 1 + 1))
      with (S (Z.to_nat (lastIndexOf c s + 1))) by lia.
    exact IH.
  - apply Z.leb_gt in E.
    assert (Hr : lastIndexOf c s = -1) by lia.
    rewrite Hr in IH. cbn in IH.
    destruct (Ascii.eqb a c) eqn:Ea; cbn; [exact IH|].
    rewrite Ea, IH. reflexivity.
Qed.

Lemma lowerChar_dot c : lowerChar c = "."%char -> c = "."%char.
Proof.
  destruct c as [[] [] [] [] [] [] [] []]; vm_compute; congruence.
Qed.

Lemma contains_dot_toLowerCase s :
  contains "." (toLowerCase s) = contains "." s.
Proof.
  unfold toLowerCase.
  induction s as [|a s IH]; [reflexivity|].
  cbn [map contains]. rewrite IH. f_equal.
  destruct (Ascii.eqb a ".") eqn:E.
  - apply Ascii.eqb_eq in E; subst; reflexivity.
  - apply Ascii.eqb_neq in E. apply Ascii.eqb_neq.
    intros H; apply E, lowerChar_dot, H.
Qed.

Lemma includes_In x l : includes x l = true <-> In x l.
Proof.
  unfold includes. rewrite existsb_exists. split.
  - intros (y & Hy & E). apply String.eqb_eq in E; subst; exact Hy.
  - intros H; exists x; split; [exact H | apply String.eqb_refl].
Qed.

End JsStringFacts.

(* ================================================================== *)
(** ** Facts about the helpers of the validator *)

Module ExtensionFacts.
Import JsString JsStringFacts.

(** The start index handed to [slice] is never negative. *)
Lemma start_index_bounds i :
  2 <= toUint32 (i - 1) + 2 <= 2 ^ 32 + 1.
Proof.
  unfold toUint32.
  pose proof (Z.mod_pos_bound (i - 1) (2 ^ 32) ltac:(lia)). lia.
Qed.

Lemma getFileExtension_unfold s :
  getFileExtension s =
  drop (Z.to_nat (Z.min (toUint32 (lastIndexOf "." s - 1) + 2) (len s))) s.
Proof.
  unfold getFileExtension, slice.
  pose proof (start_index_bounds (lastIndexOf "." s)) as B.
  destruct (_ <? 0) eqn:E; [apply Z.ltb_lt in E; lia | reflexivity].
Qed.

(** The extension is the text after the last dot, so it holds no dot;
    the only way out is a name so long that the 32-bit index wraps,
    and then the extension itself has 2^32 code units or more. *)
Lemma getFileExtension_dotless_or_huge s :
  contains "." (getFileExtension s) = false
  \/ 2 ^ 32 <= len (getFileExtension s).
Proof.
  rewrite getFileExtension_unfold.
  set (i := lastIndexOf "." s).
  pose proof (lastIndexOf_bounds "." s) as Bi. fold i in Bi.
  pose proof (start_index_bounds i) as Bs.
  set (start := toUint32 (i - 1) + 2) in *.
  destruct (Z_le_gt_dec (i + 1) (Z.min start (len s))) as [Hge|Hlt].
  - left.
    replace (Z.to_nat (Z.min start (len s)))
      with (Z.to_nat (i + 1)
            + (Z.to_nat (Z.min start (len s)) - Z.to_nat (i + 1)))%nat
      by lia.
    rewrite <- drop_drop. apply contains_drop, lastIndexOf_suffix.
  - right.
    assert (Hmin : Z.min start (len s) = start) by lia.
    rewrite Hmin. unfold len at 1. rewrite drop_length.
    unfold len in *. subst start. unfold toUint32 in *.
    pose proof (Z.div_mod (i - 1) (2 ^ 32) ltac:(lia)) as Hdm.
    pose proof (Z.mod_pos_bound (i - 1) (2 ^ 32) ltac:(lia)) as Hm.
    change (2 ^ 32) with 4294967296 in *.
    lia.
Qed.

(** A name without a dot has the empty extension. *)
Lemma getFileExtension_no_dot s :
  contains "." s = false -> len s <= 2 ^ 32 ->
  getFileExtension s = EmptyString.
Proof.
  intros Hc Hl. rewrite getFileExtension_unfold.
  rewrite (lastIndexOf_absent _ _ Hc).
  change (toUint32 (-1 - 1) + 2) with (2 ^ 32).
  rewrite Z.min_r by exact Hl.
  apply drop_all. unfold len. lia.
Qed.

(** No entry that begins with a dot and is short can be the
    lower-cased extension of any name. *)
Lemma dotted_entry_never_matches s e :
  contains "." e = true -> len e < 2 ^ 32 ->
  toLowerCase (getFileExtension s) <> e.
Proof.
  intros He Hl Heq.
  destruct (getFileExtension_dotless_or_huge s) as [H|H].
  - rewrite <- Heq, contains_dot_toLowerCase, H in He. discriminate.
  - rewrite <- Heq in Hl. unfold len, toLowerCase in *.
    rewrite map_length in Hl. lia.
Qed.

Lemma default_extensions_never_match s :
  includes (toLowerCase (getFileExtension s))
    (allowedExtensions DEFAULT_OPTIONS) = false.
Proof.
  destruct (includes _ _) eqn:E; [|reflexivity].
  apply includes_In in E. cbn [allowedExtensions DEFAULT_OPTIONS In] in E.
  exfalso.
  repeat (destruct E as [E|E];
          [ symmetry in E; revert E; apply dotted_entry_never_matches;
            [reflexivity | vm_compute; reflexivity] | ]).
  exact E.
Qed.

End ExtensionFacts.

Module SanitizeFacts.
Import JsString JsStringFacts Regex.

Lemma tidy_iff s :
  tidy s = true <->
  allChars notDangerous s = true /\ allChars notSpace s = true
  /\ noUnderscoreRun s = true /\ startsWithUnderscore s = false.
Proof.
  unfold tidy. rewrite !andb_true_iff, negb_true_iff. tauto.
Qed.

(** *** Each step establishes its part of [tidy] *)

Lemma replaceClass_allChars cls p s :
  p underscore = true ->
  (forall c, cls c = false -> p c = true) ->
  allChars p (replaceClass cls s) = true.
Proof.
  intros Hu Hp. unfold replaceClass.
  induction s as [|a s IH]; [reflexivity|].
  cbn [map allChars]. rewrite IH, andb_true_r.
  destruct (cls a) eqn:E; auto.
Qed.

Lemma replaceRunsFrom_allChars cls p b s :
  p underscore = true ->
  (forall c, cls c = false -> p c = true) ->
  allChars p (replaceRunsFrom cls b s) = true.
Proof.
  intros Hu Hp. revert b.
  induction s as [|a s IH]; intros b; [reflexivity|].
  cbn [replaceRunsFrom].
  destruct (cls a) eqn:E; [destruct b|]; cbn [allChars];
    rewrite ?IH, ?Hu, ?(Hp _ E); reflexivity.
Qed.

Lemma replaceRunsFrom_keeps cls p b s :
  p underscore = true -> allChars p s = true ->
  allChars p (replaceRunsFrom cls b s) = true.
Proof.
  intros Hu. revert b.
  induction s as [|a s IH]; intros b H; [reflexivity|].
  cbn [allChars] in H. apply andb_true_iff in H as [Ha Hs].
  cbn [replaceRunsFrom].
  destruct (cls a); [destruct b|]; cbn [allChars];
    rewrite ?IH, ?Hu, ?Ha by assumption; reflexivity.
Qed.

Lemma collapse_noUnderscoreRun b s :
  noUnderscoreRun (replaceRunsFrom isUnderscore b s) = true
  /\ (b = true ->
      startsWithUnderscore (replaceRunsFrom isUnderscore b s) = false).
Proof.
  revert b. induction s as [|a s IH]; intros b; [split; reflexivity|].
  cbn [replaceRunsFrom].
  destruct (isUnderscore a) eqn:E.
  - destruct b.
    + apply IH.
    + destruct (IH true) as [Hn Hs]. split; [|discriminate].
      cbn [noUnderscoreRun]. rewrite Hn, (Hs eq_refl). reflexivity.
  - destruct (IH false) as [Hn _]. split.
    + cbn [noUnderscoreRun]. rewrite E, Hn. reflexivity.
    + intros _. cbn [startsWithUnderscore]. exact E.
Qed.

Lemma dropLeading_allChars p s :
  allChars p s = true -> allChars p (dropLeading s) = true.
Proof.
  induction s as [|a s IH]; intros H; [reflexivity|].
  cbn [dropLeading]. destruct (isUnderscore a); [|exact H].
  cbn [allChars] in H. apply andb_true_iff in H. apply IH; tauto.
Qed.

Lemma dropLeading_noUnderscoreRun s :
  noUnderscoreRun s = true -> noUnderscoreRun (dropLeading s) = true.
Proof.
  induction s as [|a s IH]; intros H; [reflexivity|].
  cbn [dropLeading]. destruct (isUnderscore a); [|exact H].
  cbn [noUnderscoreRun] in H. apply andb_true_iff in H. apply IH; tauto.
Qed.

Lemma dropLeading_start s : startsWithUnderscore (dropLeading s) = false.
Proof.
  induction s as [|a s IH]; [reflexivity|].
  cbn [dropLeading]. destruct (isUnderscore a) eqn:E; [exact IH | exact E].
Qed.

(** What [dropTrailing] keeps, it keeps from the front. *)
Lemma dropTrailing_head s a r :
  dropTrailing s = String a r -> exists s', s = String a s'.
Proof.
  destruct s as [|c s]; cbn [dropTrailing]; [discriminate|].
  destruct (dropTrailing s); [destruct (isUnderscore c)|];
    intros H; inversion H; subst; eauto.
Qed.

Lemma dropTrailing_start s :
  startsWithUnderscore s = false ->
  startsWithUnderscore (dropTrailing s) = false.
Proof.
  destruct (dropTrailing s) as [|a r] eqn:E; [reflexivity|].
  destruct (dropTrailing_head _ _ _ E) as [s' ->]. auto.
Qed.

Lemma dropTrailing_allChars p s :
  allChars p s = true -> allChars p (dropTrailing s) = true.
Proof.
  induction s as [|a s IH]; intros H; [reflexivity|].
  cbn [allChars] in H. apply andb_true_iff in H as [Ha Hs].
  specialize (IH Hs). cbn [dropTrailing].
  destruct (dropTrailing s) as [|b r].
  - destruct (isUnderscore a); cbn [allChars]; rewrite ?Ha; reflexivity.
  - cbn [allChars] in *. rewrite Ha, IH. reflexivity.
Qed.

Lemma dropTrailing_noUnderscoreRun s :
  noUnderscoreRun s = true -> noUnderscoreRun (dropTrailing s) = true.
Proof.
  induction s as [|a s IH]; intros H; [reflexivity|].
  cbn [noUnderscoreRun] in H. apply andb_true_iff in H as [Ha Hs].
  specialize (IH Hs). cbn [dropTrailing].
  destruct (dropTrailing s) as [|b r] eqn:E.
  - destruct (isUnderscore a); cbn; rewrite ?andb_false_r; reflexivity.
  - destruct (dropTrailing_head _ _ _ E) as [s' ->].
    cbn [noUnderscoreRun startsWithUnderscore] in *.
    rewrite Ha, IH. reflexivity.
Qed.

Lemma dropTrailing_end s : endsWithUnderscore (dropTrailing s) = false.
Proof.
  induction s as [|a s IH]; [reflexivity|].
  cbn [dropTrailing].
  destruct (dropTrailing s) as [|b r].
  - destruct (isUnderscore a) eqn:E; cbn; auto.
  - exact IH.
Qed.

Lemma take_start n s :
  startsWithUnderscore s = false ->
  startsWithUnderscore (take n s) = false.
Proof. destruct n, s; cbn; auto. Qed.

Lemma take_allChars p n s :
  allChars p s = true -> allChars p (take n s) = true.
Proof.
  revert s; induction n as [|n IH]; intros [|a s] H; cbn in *; auto.
  apply andb_true_iff in H as [Ha Hs]. rewrite Ha, IH; auto.
Qed.

Lemma take_noUnderscoreRun n s :
  noUnderscoreRun s = true -> noUnderscoreRun (take n s) = true.
Proof.
  revert s; induction n as [|n IH]; intros [|a s] H; cbn [take]; auto.
  cbn [noUnderscoreRun] in *. apply andb_true_iff in H as [Ha Hs].
  rewrite (IH _ Hs), andb_true_r.
  destruct (isUnderscore a); [|reflexivity].
  cbn [andb negb] in *. apply negb_true_iff in Ha.
  rewrite (take_start _ _ Ha). reflexivity.
Qed.

(** *** Each step leaves a tidy name alone *)

Lemma replaceClass_id cls s :
  allChars (fun c => negb (cls c)) s = true -> replaceClass cls s = s.
Proof.
  unfold replaceClass.
  induction s as [|a s IH]; intros H; [reflexivity|].
  cbn [allChars] in H. apply andb_true_iff in H as [Ha Hs].
  apply negb_true_iff in Ha. cbn [map]. rewrite Ha, IH; auto.
Qed.

Lemma replaceRunsFrom_id cls b s :
  allChars (fun c => negb (cls c)) s = true ->
  replaceRunsFrom cls b s = s.
Proof.
  revert b. induction s as [|a s IH]; intros b H; [reflexivity|].
  cbn [allChars] in H. apply andb_true_iff in H as [Ha Hs].
  apply negb_true_iff in Ha. cbn [replaceRunsFrom].
  rewrite Ha, IH; auto.
Qed.

Lemma collapse_id b s :
  noUnderscoreRun s = true ->
  (b = true -> startsWithUnderscore s = false) ->
  replaceRunsFrom isUnderscore b s = s.
Proof.
  revert b. induction s as [|a s IH]; intros b H Hb; [reflexivity|].
  cbn [noUnderscoreRun] in H. apply andb_true_iff in H as [Ha Hs].
  cbn [replaceRunsFrom startsWithUnderscore] in *.
  destruct (isUnderscore a) eqn:E.
  - destruct b; [specialize (Hb eq_refl); discriminate|].
    cbn [andb] in Ha. apply negb_true_iff in Ha.
    rewrite (IH true Hs (fun _ => Ha)).
    unfold isUnderscore in E. apply Ascii.eqb_eq in E. congruence.
  - rewrite (IH false Hs); [reflexivity | discriminate].
Qed.

Lemma dropLeading_id s :
  startsWithUnderscore s = false -> dropLeading s = s.
Proof.
  destruct s as [|a s]; cbn; [reflexivity|]. intros ->. reflexivity.
Qed.

Lemma dropTrailing_id s :
  endsWithUnderscore s = false -> dropTrailing s = s.
Proof.
  induction s as [|a s IH]; intros H; [reflexivity|].
  cbn [dropTrailing]. destruct s as [|b s].
  - cbn in *. rewrite H. reflexivity.
  - rewrite IH by exact H. reflexivity.
Qed.

(** *** No step makes the name longer *)

Lemma replaceRunsFrom_length cls b s :
  (String.length (replaceRunsFrom cls b s) <= String.length s)%nat.
Proof.
  revert b. induction s as [|a s IH]; intros b; cbn; [lia|].
  pose proof (IH true); pose proof (IH false).
  destruct (cls a); [destruct b|]; cbn; lia.
Qed.

Lemma dropLeading_length s :
  (String.length (dropLeading s) <= String.length s)%nat.
Proof.
  induction s as [|a s IH]; cbn; [lia|].
  destruct (isUnderscore a); cbn; lia.
Qed.

Lemma dropTrailing_length s :
  (String.length (dropTrailing s) <= String.length s)%nat.
Proof.
  induction s as [|a s IH]; cbn [dropTrailing]; [lia|].
  destruct (dropTrailing s); [destruct (isUnderscore a)|]; cbn in *; lia.
Qed.

(** *** The whole transformation *)

Lemma sanitizeFileName_take x :
  sanitizeFileName x = take 255 (cleaned x).
Proof.
  unfold sanitizeFileName. rewrite substring_prefix by lia. reflexivity.
Qed.

Lemma cleaned_tidy x : tidy (cleaned x) = true.
Proof.
  apply tidy_iff. unfold cleaned, trimUnderscores, replaceRuns.
  repeat split.
  - apply dropTrailing_allChars, dropLeading_allChars.
    do 2 (apply replaceRunsFrom_keeps; [reflexivity|]).
    apply replaceClass_allChars; [reflexivity|].
    intros c Hc. unfold notDangerous. rewrite Hc. reflexivity.
  - apply dropTrailing_allChars, dropLeading_allChars.
    apply replaceRunsFrom_keeps; [reflexivity|].
    apply replaceRunsFrom_allChars; [reflexivity|].
    intros c Hc. unfold notSpace. rewrite Hc. reflexivity.
  - apply dropTrailing_noUnderscoreRun, dropLeading_noUnderscoreRun.
    apply collapse_noUnderscoreRun.
  - apply dropTrailing_start, dropLeading_start.
Qed.

Lemma cleaned_end x : endsWithUnderscore (cleaned x) = false.
Proof. apply dropTrailing_end. Qed.

Lemma cleaned_length x :
  (String.length (cleaned x) <= String.length x)%nat.
Proof.
  unfold cleaned, trimUnderscores, replaceRuns, replaceClass.
  etransitivity; [apply dropTrailing_length|].
  etransitivity; [apply dropLeading_length|].
  etransitivity; [apply replaceRunsFrom_length|].
  etransitivity; [apply replaceRunsFrom_length|].
  rewrite map_length. lia.
Qed.

Lemma sanitizeFileName_tidy x : tidy (sanitizeFileName x) = true.
Proof.
  rewrite sanitizeFileName_take.
  pose proof (cleaned_tidy x) as H. apply tidy_iff in H.
  destruct H as (H1 & H2 & H3 & H4). apply tidy_iff. repeat split.
  - apply take_allChars, H1.
  - apply take_allChars, H2.
  - apply take_noUnderscoreRun, H3.
  - apply take_start, H4.
Qed.

Lemma sanitizeFileName_length x :
  (String.length (sanitizeFileName x) <= 255)%nat.
Proof. rewrite sanitizeFileName_take, take_length. lia. Qed.

(** On a tidy name of at most 255 code units only the removal of a
    trailing underscore can still change anything. *)
Lemma sanitizeFileName_of_tidy s :
  tidy s = true -> (String.length s <= 255)%nat ->
  sanitizeFileName s = dropTrailing s.
Proof.
  intros H Hl. apply tidy_iff in H. destruct H as (H1 & H2 & H3 & H4).
  rewrite sanitizeFileName_take. unfold cleaned, trimUnderscores, replaceRuns.
  rewrite (replaceClass_id isDangerous s H1).
  rewrite (replaceRunsFrom_id isSpace false s H2).
  rewrite (collapse_id false s H3) by discriminate.
  rewrite (dropLeading_id s H4).
  apply take_all. pose proof (dropTrailing_length s). lia.
Qed.

Lemma sanitizeFileName_twice x :
  sanitizeFileName (sanitizeFileName x) = dropTrailing (sanitizeFileName x).
Proof.
  apply sanitizeFileName_of_tidy;
    [apply sanitizeFileName_tidy | apply sanitizeFileName_length].
Qed.

(** A second pass changes the name exactly when truncation left an
    underscore at its end. *)
Lemma sanitizeFileName_stable_iff x :
  sanitizeFileName (sanitizeFileName x) = sanitizeFileName x
  <-> endsWithUnderscore (sanitizeFileName x) = false.
Proof.
  rewrite sanitizeFileName_twice. split.
  - intros H. rewrite <- H. apply dropTrailing_end.
  - apply dropTrailing_id.
Qed.

(** Names that fit in 255 code units are not truncated. *)
Lemma sanitizeFileName_short x :
  (String.length x <= 255)%nat ->
  endsWithUnderscore (sanitizeFileName x) = false.
Proof.
  intros H. rewrite sanitizeFileName_take, take_all.
  - apply cleaned_end.
  - pose proof (cleaned_length x). lia.
Qed.

End SanitizeFacts.

Module ValidatorFacts.
Import JsString JsStringFacts.

Lemma fileValidator_options : fileValidator = DEFAULT_OPTIONS.
Proof. reflexivity. Qed.

(** The security step hands back either [valid] or a rejection, so
    the test that follows the [await] returns its result as it is. *)
Lemma performSecurityChecks_await f :
  (securityCheck <- performSecurityChecks f ;;
   if negb (isValid securityCheck) then Resolved securityCheck
   else Resolved valid)
  = performSecurityChecks f.
Proof.
  unfold performSecurityChecks, validatePdfHeader.
  destruct (existsb _ _); [reflexivity|].
  destruct (type f =? _)%string; [|reflexivity].
  destruct (content f); [|reflexivity|reflexivity].
  destruct (headerOf bytes =? _)%string; reflexivity.
Qed.

Lemma performSecurityChecks_results f r :
  performSecurityChecks f = Resolved r ->
  r = valid \/ r = invalid securityMessage \/ r = invalid pdfMessage.
Proof.
  unfold performSecurityChecks, validatePdfHeader.
  destruct (existsb _ _); [intros [= <-]; tauto|].
  destruct (type f =? _)%string; [|intros [= <-]; tauto].
  destruct (content f); cbn [await]; [|intros [= <-]; tauto|discriminate].
  destruct (headerOf bytes =? _)%string; intros [= <-]; tauto.
Qed.

(** Past the three gates the outcome is the renamed copy, or else
    whatever the security step says. *)
Lemma validateFileBody_past_gates fmt o f :
  passesSize o f -> passesType o f -> passesExtension o f ->
  validateFileBody fmt o f =
  if (sanitizeFileName (name f) =? name f)%string
  then performSecurityChecks f
  else Resolved
         (validRenamed (newFile f (sanitizeFileName (name f)) (type f))).
Proof.
  unfold passesSize, passesType, passesExtension, validateFileBody.
  intros Hs Ht He.
  apply Z.ltb_ge in Hs. rewrite Hs, Ht, He. cbn [negb].
  destruct (sanitizeFileName (name f) =? name f)%string; cbn [negb].
  - apply performSecurityChecks_await.
  - reflexivity.
Qed.

Lemma validateFileBody_extension_gate fmt o f :
  passesSize o f -> passesType o f -> ~ passesExtension o f ->
  validateFileBody fmt o f =
  Resolved (invalid (extensionMessage o (getFileExtension (name f)))).
Proof.
  unfold passesSize, passesType, passesExtension, validateFileBody.
  intros Hs Ht He.
  apply Z.ltb_ge in Hs. apply not_true_is_false in He.
  rewrite Hs, Ht, He. reflexivity.
Qed.

Lemma validateFileBody_size_gate fmt o f :
  ~ passesSize o f ->
  validateFileBody fmt o f = Resolved (invalid (sizeMessage fmt o)).
Proof.
  unfold passesSize, validateFileBody. intros Hs.
  assert (E : (maxSizeBytes o <? size f) = true) by (apply Z.ltb_lt; lia).
  rewrite E. reflexivity.
Qed.

Lemma validateFileBody_type_gate fmt o f :
  passesSize o f -> ~ passesType o f ->
  validateFileBody fmt o f = Resolved (invalid (typeMessage o f)).
Proof.
  unfold passesSize, passesType, validateFileBody. intros Hs Ht.
  apply Z.ltb_ge in Hs. apply not_true_is_false in Ht.
  rewrite Hs, Ht. reflexivity.
Qed.


(** The body ends in a rejection message at one of the gates or
    delegates to the later steps. *)
Lemma validateFileBody_gate_cases fmt o f :
  (exists msg, validateFileBody fmt o f = Resolved (invalid msg))
  \/ (passesSize o f /\ passesType o f /\ passesExtension o f).
Proof.
  unfold validateFileBody, passesSize, passesType, passesExtension.
  destruct (maxSizeBytes o <? size f) eqn:Hs; [left; eauto|].
  destruct (includes (type f) _) eqn:Ht; [|left; cbn; eauto].
  destruct (includes (toLowerCase _) _) eqn:He; [|left; cbn; eauto].
  right. apply Z.ltb_ge in Hs. auto.
Qed.

Lemma headerOf_magic bytes :
  (headerOf bytes =? "%PDF")%string = true <-> firstn 4 bytes = pdfMagic.
Proof.
  unfold headerOf. rewrite firstn_firstn, Nat.min_id, String.eqb_eq.
  split; intros H.
  - apply (f_equal list_byte_of_string) in H.
    rewrite list_byte_of_string_of_list_byte in H. exact H.
  - rewrite H. reflexivity.
Qed.

End ValidatorFacts.

(* ================================================================== *)
(** ** Properties of [validateFile] *)

Module ValidatorProperties.
Import JsString JsStringFacts ExtensionFacts SanitizeFacts ValidatorFacts.

(** Every call resolves, and its result has one of three shapes. *)
Lemma validateFile_shapes fmt o f :
  exists r, validateFile fmt o f = Resolved r
    /\ (r = valid \/ (exists msg, r = invalid msg)
        \/ (exists f', r = validRenamed f')).
Proof.
  unfold validateFile.
  destruct (validateFileBody_gate_cases fmt o f)
    as [[msg ->] | (Hs & Ht & He)]; [cbn; eauto 6|].
  rewrite (validateFileBody_past_gates fmt o f Hs Ht He).
  destruct (_ =? _)%string; [|cbn; eauto 6].
  destruct (performSecurityChecks f) as [r|e] eqn:E; cbn.
  - exists r. split; [reflexivity|].
    destruct (performSecurityChecks_results f r E) as [->|[->| ->]];
      eauto 6.
  - unfold catchClause. eauto 6.
Qed.

(** C1 (the code departs from this claim).  The claim: under any
    configuration whose [allowedExtensions] contains [".pdf"], the
    extension check accepts the names ["file.pdf"] and ["FILE.PDF"].
    What the code does under its own defaults, which contain [".pdf"]:
    the extracted extension carries no dot, so both names are turned
    away by the extension check, with the allowlist quoted in the
    message. *)
Theorem default_validator_rejects_pdf_names fmt :
  In ".pdf" (allowedExtensions fileValidator)
  /\ validateFile fmt fileValidator goodPdf
     = Resolved (invalid
         "Unsupported file extension: pdf. Allowed extensions: .pdf, .jpg, .jpeg, .png, .gif, .webp")
  /\ validateFile fmt fileValidator
       (mkFile "FILE.PDF" "application/pdf" 1024 (Loaded pdfBytes))
     = Resolved (invalid
         "Unsupported file extension: PDF. Allowed extensions: .pdf, .jpg, .jpeg, .png, .gif, .webp").
Proof.
  split; [left; reflexivity|]. split; reflexivity.
Qed.

(** C2 (the code departs from this claim).  The claim: a candidate
    within the size limit, whose declared type and extension are on the
    allowlists, whose name is clean and matches no denylist pattern,
    and whose content starts with [%PDF], gets a valid result with no
    optional field.  What the code does with such a candidate under its
    own defaults: [goodPdf] is within the limit, its type is listed,
    its extension [.pdf] is listed, sanitization leaves its name alone,
    no denylist pattern matches it and its first four bytes are [%PDF];
    yet the extension handed to the lookup is [pdf] without the dot,
    and the result is the extension error. *)
Theorem fully_valid_pdf_rejected_by_default fmt :
  size goodPdf <= maxSizeBytes fileValidator
  /\ In (type goodPdf) (allowedTypes fileValidator)
  /\ In (String "." (getFileExtension (name goodPdf)))
       (allowedExtensions fileValidator)
  /\ sanitizeFileName (name goodPdf) = name goodPdf
  /\ matchesDenylist (name goodPdf) = false
  /\ type goodPdf = "application/pdf"
  /\ (exists bytes, content goodPdf = Loaded bytes
                    /\ firstn 4 bytes = pdfMagic)
  /\ validateFile fmt fileValidator goodPdf
     = Resolved
         {| isValid := false;
            error := Some
              "Unsupported file extension: pdf. Allowed extensions: .pdf, .jpg, .jpeg, .png, .gif, .webp";
            sanitizedFile := None |}.
Proof.
  split; [cbn; lia|].
  split; [left; reflexivity|].
  split; [left; reflexivity|].
  split; [reflexivity|].
  split; [reflexivity|].
  split; [reflexivity|].
  split; [exists pdfBytes; split; reflexivity|].
  reflexivity.
Qed.

(** Where the code's own extension test does pass, which takes an
    allowlist of bare extensions, a candidate that meets the other
    conditions is accepted: [isValid] is true and neither optional
    field is set. *)
Lemma validateFile_accepts_clean_candidate fmt o f :
  passesSize o f -> passesType o f -> passesExtension o f ->
  sanitizeFileName (name f) = name f ->
  matchesDenylist (name f) = false ->
  (type f = "application/pdf" ->
   exists bytes, content f = Loaded bytes /\ firstn 4 bytes = pdfMagic) ->
  validateFile fmt o f =
  Resolved {| isValid := true; error := None; sanitizedFile := None |}.
Proof.
  intros Hs Ht He Hn Hd Hpdf. unfold validateFile.
  rewrite (validateFileBody_past_gates fmt o f Hs Ht He), Hn, String.eqb_refl.
  unfold performSecurityChecks. fold (matchesDenylist (name f)). rewrite Hd.
  destruct (type f =? "application/pdf")%string eqn:E; [|reflexivity].
  apply String.eqb_eq in E. destruct (Hpdf E) as (bytes & Hc & Hm).
  unfold validatePdfHeader. rewrite Hc.
  apply headerOf_magic in Hm. rewrite Hm. reflexivity.
Qed.

Lemma validateFile_accepts_clean_candidate_witness :
  passesSize pdfOnly goodPdf /\ passesType pdfOnly goodPdf
  /\ passesExtension pdfOnly goodPdf
  /\ sanitizeFileName (name goodPdf) = name goodPdf
  /\ matchesDenylist (name goodPdf) = false
  /\ validateFile FormatBytes.formatBytes pdfOnly goodPdf
     = Resolved {| isValid := true; error := None; sanitizedFile := None |}.
Proof.
  assert (Hs : passesSize pdfOnly goodPdf) by (unfold passesSize; cbn; lia).
  repeat (split; [first [exact Hs | reflexivity]|]).
  apply validateFile_accepts_clean_candidate;
    [exact Hs | reflexivity | reflexivity | reflexivity | reflexivity |].
  intros _. exists pdfBytes. split; reflexivity.
Defined.

(** C3.  A candidate that passes the size, type and extension checks
    and whose sanitized name differs from its name is accepted at
    once, with a copy under the cleaned name that has the same bytes
    and the same declared type.  Neither later check is run: the name
    may match the denylist, and the verdict is the same whatever the
    content holds, unreadable and throwing contents included. *)
Theorem validateFile_renames_and_returns fmt o f :
  passesSize o f -> passesType o f -> passesExtension o f ->
  sanitizeFileName (name f) <> name f ->
  validateFile fmt o f =
  Resolved {| isValid := true;
              error := None;
              sanitizedFile :=
                Some {| name := sanitizeFileName (name f);
                        type := type f;
                        size := size f;
                        content := content f |} |}
  /\ forall c : ReadOutcome,
       validateFile fmt o
         {| name := name f; type := type f; size := size f; content := c |}
       = Resolved {| isValid := true;
                     error := None;
                     sanitizedFile :=
                       Some {| name := sanitizeFileName (name f);
                               type := type f;
                               size := size f;
                               content := c |} |}.
Proof.
  intros Hs Ht He Hn.
  assert (Hany : forall g, name g = name f -> type g = type f ->
                           size g = size f ->
                           validateFile fmt o g =
                           Resolved (validRenamed
                             (newFile g (sanitizeFileName (name g)) (type g)))).
  { intros g Hgn Hgt Hgs. unfold validateFile.
    rewrite validateFileBody_past_gates.
    - rewrite Hgn. apply String.eqb_neq in Hn. rewrite Hn. reflexivity.
    - unfold passesSize. rewrite Hgs. exact Hs.
    - unfold passesType. rewrite Hgt. exact Ht.
    - unfold passesExtension. rewrite Hgn. exact He. }
  split.
  - apply (Hany f); reflexivity.
  - intros c. apply (Hany (mkFile (name f) (type f) (size f) c)); reflexivity.
Qed.

(** A run of C3 on a file that both later checks would turn away: its
    name ends in [.js] and reading its content throws. *)
Lemma validateFile_renames_and_returns_witness :
  performSecurityChecks scriptFile = Resolved (invalid securityMessage)
  /\ sanitizeFileName (name scriptFile) <> name scriptFile
  /\ validateFile FormatBytes.formatBytes scriptsToo scriptFile =
     Resolved {| isValid := true;
                 error := None;
                 sanitizedFile :=
                   Some {| name := "my_script.js";
                           type := "application/pdf";
                           size := 1024;
                           content := content scriptFile |} |}.
Proof.
  split; [reflexivity|].
  assert (Hn : sanitizeFileName (name scriptFile) <> name scriptFile)
    by (apply String.eqb_neq; reflexivity).
  split; [exact Hn|].
  refine (proj1 (validateFile_renames_and_returns FormatBytes.formatBytes
                   scriptsToo scriptFile _ _ _ Hn)).
  - unfold passesSize; cbn; lia.
  - reflexivity.
  - reflexivity.
Defined.

(** C4.  The exported default validator accepts no file: no name has
    a lower-cased extension equal to one of the dotted entries of the
    default extension allowlist, so a file that gets past the size and
    type checks is stopped at the extension check, and every call
    resolves to an invalid result. *)
Theorem default_validator_accepts_nothing fmt f :
  (forall e, In e (allowedExtensions fileValidator) ->
             String.prefix "." e = true)
  /\ ~ passesExtension fileValidator f
  /\ exists msg, validateFile fmt fileValidator f = Resolved (invalid msg).
Proof.
  assert (Hext : ~ passesExtension fileValidator f).
  { unfold passesExtension. rewrite fileValidator_options.
    rewrite default_extensions_never_match. discriminate. }
  split; [|split; [exact Hext|]].
  - intros e He. cbn in He.
    repeat (destruct He as [<-|He]; [reflexivity|]). contradiction.
  - unfold validateFile.
    destruct (validateFileBody_gate_cases fmt fileValidator f)
      as [[msg ->] | (_ & _ & He)]; [cbn; eauto | contradiction].
Qed.

(** C5.  In the result of every call: a valid result carries no error
    message, an invalid result carries no sanitized file, and the two
    optional fields are never both set. *)
Theorem validateFile_result_invariant fmt o f :
  exists r, validateFile fmt o f = Resolved r
    /\ (isValid r = true -> error r = None)
    /\ (isValid r = false -> sanitizedFile r = None)
    /\ ~ (error r <> None /\ sanitizedFile r <> None).
Proof.
  destruct (validateFile_shapes fmt o f) as (r & Hr & Hshape).
  exists r. split; [exact Hr|].
  destruct Hshape as [-> | [[msg ->] | [f' ->]]]; cbn;
    repeat split; try discriminate; try tauto.
Qed.

(** C6, refuted as stated.  Sanitizing [longName] keeps its first 255
    code units, which end in an underscore; a second pass removes that
    underscore, so the transformation is not idempotent on every
    name. *)
Lemma sanitizeFileName_not_idempotent :
  sanitizeFileName (sanitizeFileName longName) <> sanitizeFileName longName.
Proof. apply String.eqb_neq. vm_compute. reflexivity. Qed.

(** C6, amended.  Sanitization is idempotent on every name whose
    sanitized form does not end in an underscore, which covers every
    name of at most 255 code units.  When a call returned a sanitized
    file with such a name, validating that file (same bytes and type,
    cleaned name) leaves the name as it is and returns no further
    sanitized file; if the extension of the cleaned name is still
    on the allowlist, the call goes on to the denylist and PDF-header
    checks and its outcome is theirs, and otherwise it is rejected by
    the extension check. *)
Theorem sanitized_file_needs_no_second_rename :
  (forall x, endsWithUnderscore (sanitizeFileName x) = false ->
             sanitizeFileName (sanitizeFileName x) = sanitizeFileName x)
  /\ (forall x, (String.length x <= 255)%nat ->
                endsWithUnderscore (sanitizeFileName x) = false)
  /\ (forall fmt o f r f',
        validateFile fmt o f = Resolved r ->
        sanitizedFile r = Some f' ->
        endsWithUnderscore (name f') = false ->
        f' = newFile f (sanitizeFileName (name f)) (type f)
        /\ sanitizeFileName (name f') = name f'
        /\ (exists r', validateFile fmt o f' = Resolved r'
                       /\ sanitizedFile r' = None)
        /\ (passesExtension o f' ->
            validateFile fmt o f' =
            tryCatch (performSecurityChecks f') catchClause)
        /\ (~ passesExtension o f' ->
            validateFile fmt o f' =
            Resolved
              (invalid (extensionMessage o (getFileExtension (name f')))))).
Proof.
  split; [intros x; apply sanitizeFileName_stable_iff|].
  split; [exact sanitizeFileName_short|].
  intros fmt o f r f' Hr Hf' Hend.
  (* the first call passed the three gates and took the renaming exit *)
  assert (Hfirst : passesSize o f /\ passesType o f
                   /\ f' = newFile f (sanitizeFileName (name f)) (type f)).
  { unfold validateFile in Hr.
    destruct (validateFileBody_gate_cases fmt o f)
      as [[msg Hm] | (Hs & Ht & He)].
    - rewrite Hm in Hr. cbn in Hr. injection Hr as <-. discriminate.
    - rewrite (validateFileBody_past_gates fmt o f Hs Ht He) in Hr.
      destruct (_ =? _)%string.
      + destruct (performSecurityChecks f) as [r0|e] eqn:E; cbn in Hr.
        * injection Hr as <-.
          destruct (performSecurityChecks_results f r0 E)
            as [->|[->| ->]]; discriminate.
        * injection Hr as <-. discriminate.
      + cbn in Hr. injection Hr as <-. cbn in Hf'.
        injection Hf' as <-. auto. }
  destruct Hfirst as (Hs & Ht & ->).
  set (f' := newFile f (sanitizeFileName (name f)) (type f)) in *.
  assert (Hstable : sanitizeFileName (name f') = name f')
    by (apply sanitizeFileName_stable_iff, Hend).
  assert (Hs' : passesSize o f') by exact Hs.
  assert (Ht' : passesType o f') by exact Ht.
  assert (Hnext : passesExtension o f' ->
                  validateFile fmt o f' =
                  tryCatch (performSecurityChecks f') catchClause).
  { intros He'. unfold validateFile.
    rewrite (validateFileBody_past_gates fmt o f' Hs' Ht' He').
    rewrite Hstable, String.eqb_refl. reflexivity. }
  assert (Hgate : ~ passesExtension o f' ->
                  validateFile fmt o f' =
                  Resolved
                    (invalid
                       (extensionMessage o (getFileExtension (name f'))))).
  { intros He'. unfold validateFile.
    rewrite (validateFileBody_extension_gate fmt o f' Hs' Ht' He').
    reflexivity. }
  split; [reflexivity|]. split; [exact Hstable|].
  split; [|split; [exact Hnext | exact Hgate]].
  destruct (includes (toLowerCase (getFileExtension (name f')))
              (allowedExtensions o)) eqn:He'.
  - rewrite (Hnext He').
    destruct (performSecurityChecks f') as [r0|e] eqn:E; cbn.
    + exists r0. split; [reflexivity|].
      destruct (performSecurityChecks_results f' r0 E)
        as [->|[->| ->]]; reflexivity.
    + eexists. split; reflexivity.
  - unfold validateFile.
    rewrite (validateFileBody_extension_gate fmt o f' Hs' Ht').
    + eexists. split; reflexivity.
    + unfold passesExtension. rewrite He'. discriminate.
Qed.

(** A run of the amended C6: [spacedPdf] is renamed, and the renamed
    file then goes through the later checks and is accepted. *)
Lemma sanitized_file_needs_no_second_rename_witness :
  validateFile FormatBytes.formatBytes pdfOnly spacedPdf =
    Resolved (validRenamed (newFile spacedPdf "My_File_v2_.pdf" "application/pdf"))
  /\ sanitizeFileName "My_File_v2_.pdf" = "My_File_v2_.pdf"
  /\ validateFile FormatBytes.formatBytes pdfOnly
       (newFile spacedPdf "My_File_v2_.pdf" "application/pdf")
     = tryCatch
         (performSecurityChecks
            (newFile spacedPdf "My_File_v2_.pdf" "application/pdf"))
         catchClause.
Proof.
  split; [reflexivity|].
  destruct sanitized_file_needs_no_second_rename as (_ & _ & H).
  destruct (H FormatBytes.formatBytes pdfOnly spacedPdf
              (validRenamed
                 (newFile spacedPdf "My_File_v2_.pdf" "application/pdf"))
              (newFile spacedPdf "My_File_v2_.pdf" "application/pdf")
              eq_refl eq_refl eq_refl)
    as (_ & Hst & _ & Hnext & _).
  split; [exact Hst | apply Hnext; reflexivity].
Defined.

(** Truncation can also cut the extension off: the sanitized copy is
    then stopped at the extension check instead of reaching the later
    checks. *)
Lemma truncation_can_drop_the_extension :
  validateFile FormatBytes.formatBytes pdfOnly longPdf
  = Resolved (validRenamed
                (newFile longPdf (replicate 255 "a") "application/pdf"))
  /\ sanitizeFileName (replicate 255 "a") = replicate 255 "a"
  /\ validateFile FormatBytes.formatBytes pdfOnly
       (newFile longPdf (replicate 255 "a") "application/pdf")
     = Resolved (invalid
         "Unsupported file extension: . Allowed extensions: pdf").
Proof. split; [|split]; vm_compute; reflexivity. Qed.

(** C7, refuted as stated.  Under the default configuration
    [invoice.pdf.exe], declared as a PDF, is turned away by the
    extension check; the denylist is not what rejects it. *)
Lemma invoice_exe_rejected_before_denylist :
  name invoiceExe = "invoice.pdf.exe"
  /\ validateFile FormatBytes.formatBytes fileValidator invoiceExe
     = Resolved (invalid
         "Unsupported file extension: exe. Allowed extensions: .pdf, .jpg, .jpeg, .png, .gif, .webp")
  /\ validateFile FormatBytes.formatBytes fileValidator invoiceExe
     <> Resolved (invalid securityMessage).
Proof.
  split; [reflexivity|]. split; [reflexivity|].
  vm_compute. discriminate.
Qed.

(** C7, amended.  A candidate named [invoice.pdf.exe] is invalid
    under every configuration and every declared MIME type; the
    rejection comes from the security denylist whenever the candidate
    gets past the size, declared-type and extension checks, and from
    the first of those three that fails otherwise. *)
Theorem invoice_exe_always_invalid fmt o f :
  name f = "invoice.pdf.exe" ->
  (exists msg, validateFile fmt o f = Resolved (invalid msg))
  /\ (~ passesSize o f ->
      validateFile fmt o f = Resolved (invalid (sizeMessage fmt o)))
  /\ (passesSize o f -> ~ passesType o f ->
      validateFile fmt o f = Resolved (invalid (typeMessage o f)))
  /\ (passesSize o f -> passesType o f -> ~ passesExtension o f ->
      validateFile fmt o f = Resolved (invalid (extensionMessage o "exe")))
  /\ (passesSize o f -> passesType o f -> passesExtension o f ->
      validateFile fmt o f = Resolved (invalid securityMessage)).
Proof.
  intros Hn.
  assert (Hsize : ~ passesSize o f ->
                  validateFile fmt o f
                  = Resolved (invalid (sizeMessage fmt o))).
  { intros Hs. unfold validateFile.
    rewrite (validateFileBody_size_gate fmt o f Hs). reflexivity. }
  assert (Htype : passesSize o f -> ~ passesType o f ->
                  validateFile fmt o f
                  = Resolved (invalid (typeMessage o f))).
  { intros Hs Ht. unfold validateFile.
    rewrite (validateFileBody_type_gate fmt o f Hs Ht). reflexivity. }
  assert (Hext : passesSize o f -> passesType o f -> ~ passesExtension o f ->
                 validateFile fmt o f
                 = Resolved (invalid (extensionMessage o "exe"))).
  { intros Hs Ht He. unfold validateFile.
    rewrite (validateFileBody_extension_gate fmt o f Hs Ht He), Hn.
    reflexivity. }
  assert (Hlate : passesSize o f -> passesType o f -> passesExtension o f ->
                  validateFile fmt o f = Resolved (invalid securityMessage)).
  { intros Hs Ht He. unfold validateFile.
    rewrite (validateFileBody_past_gates fmt o f Hs Ht He), Hn.
    change (sanitizeFileName "invoice.pdf.exe" =? "invoice.pdf.exe")%string
      with true.
    unfold performSecurityChecks. rewrite Hn. reflexivity. }
  split; [|split; [exact Hsize | split; [exact Htype
                                        | split; [exact Hext | exact Hlate]]]].
  destruct (validateFileBody_gate_cases fmt o f)
    as [[msg Hm] | (Hs & Ht & He)].
  - exists msg. unfold validateFile. rewrite Hm. reflexivity.
  - eauto.
Qed.

(** Two runs of the amended C7: under an allowlist that names [exe] the
    denylist turns the file away, and under the default configuration,
    where size and type pass, the extension check does. *)
Lemma invoice_exe_always_invalid_witness :
  passesSize scriptsToo invoiceExe /\ passesType scriptsToo invoiceExe
  /\ passesExtension scriptsToo invoiceExe
  /\ validateFile FormatBytes.formatBytes scriptsToo invoiceExe
     = Resolved (invalid securityMessage)
  /\ ~ passesExtension fileValidator invoiceExe
  /\ validateFile FormatBytes.formatBytes fileValidator invoiceExe
     = Resolved (invalid (extensionMessage fileValidator "exe")).
Proof.
  assert (Hs : passesSize scriptsToo invoiceExe)
    by (unfold passesSize; cbn; lia).
  assert (Hs' : passesSize fileValidator invoiceExe)
    by (unfold passesSize; cbn; lia).
  assert (He' : ~ passesExtension fileValidator invoiceExe)
    by (unfold passesExtension; vm_compute; discriminate).
  pose proof (invoice_exe_always_invalid FormatBytes.formatBytes scriptsToo
                invoiceExe eq_refl) as (_ & _ & _ & _ & Hlate).
  pose proof (invoice_exe_always_invalid FormatBytes.formatBytes fileValidator
                invoiceExe eq_refl) as (_ & _ & _ & Hext & _).
  split; [exact Hs|]. split; [reflexivity|]. split; [reflexivity|].
  split; [apply Hlate; [exact Hs | reflexivity | reflexivity]|].
  split; [exact He'|].
  apply Hext; [exact Hs' | reflexivity | exact He'].
Defined.

(** C8.  A candidate declared [application/pdf] that passes the size,
    type, extension and denylist checks and needs no rename, and whose
    first four bytes are not [%PDF], gets an invalid result with the
    message [Invalid PDF file format]. *)
Theorem validateFile_rejects_wrong_pdf_header fmt o f bytes :
  type f = "application/pdf" ->
  passesSize o f -> passesType o f -> passesExtension o f ->
  sanitizeFileName (name f) = name f ->
  matchesDenylist (name f) = false ->
  content f = Loaded bytes -> firstn 4 bytes <> pdfMagic ->
  validateFile fmt o f = Resolved (invalid "Invalid PDF file format").
Proof.
  intros Hty Hs Ht He Hn Hd Hc Hm. unfold validateFile.
  rewrite (validateFileBody_past_gates fmt o f Hs Ht He), Hn, String.eqb_refl.
  unfold performSecurityChecks. fold (matchesDenylist (name f)).
  rewrite Hd, Hty, String.eqb_refl.
  unfold validatePdfHeader. rewrite Hc.
  destruct (headerOf bytes =? "%PDF")%string eqn:E; [|reflexivity].
  apply headerOf_magic in E. contradiction.
Qed.

Lemma validateFile_rejects_wrong_pdf_header_witness :
  passesSize pdfOnly jpegAsPdf /\ passesType pdfOnly jpegAsPdf
  /\ passesExtension pdfOnly jpegAsPdf
  /\ firstn 4 jpegBytes <> pdfMagic
  /\ validateFile FormatBytes.formatBytes pdfOnly jpegAsPdf
     = Resolved (invalid "Invalid PDF file format").
Proof.
  assert (Hs : passesSize pdfOnly jpegAsPdf)
    by (unfold passesSize; cbn; lia).
  assert (Hm : firstn 4 jpegBytes <> pdfMagic) by (cbn; discriminate).
  repeat (split; [first [exact Hs | exact Hm | reflexivity]|]).
  apply (validateFile_rejects_wrong_pdf_header FormatBytes.formatBytes
           pdfOnly jpegAsPdf jpegBytes);
    first [exact Hs | exact Hm | reflexivity].
Defined.

(** A content that cannot be read is not a thrown fault: the reader's
    error event makes the header test answer false, so a declared PDF
    is turned away with the header message. *)
Lemma unreadable_pdf_fails_header_check :
  validateFile FormatBytes.formatBytes pdfOnly
    (mkFile "file.pdf" "application/pdf" 1024 ReadError)
  = Resolved (invalid pdfMessage).
Proof. reflexivity. Qed.

(** The body of the [try] block can end in a throw. *)
Lemma validateFileBody_can_throw :
  validateFileBody FormatBytes.formatBytes pdfOnly
    (mkFile "file.pdf" "application/pdf" 1024
       (ReaderThrows (ErrorObject "FileReader is not defined")))
  = Rejected (ErrorObject "FileReader is not defined")
  /\ validateFile FormatBytes.formatBytes pdfOnly
       (mkFile "file.pdf" "application/pdf" 1024
          (ReaderThrows (ErrorObject "FileReader is not defined")))
     = Resolved
         (invalid "File validation failed: FileReader is not defined").
Proof. split; reflexivity. Qed.




(** C10, refuted as stated.  With the empty string on the extension
    allowlist, the dotless name [noext] passes the extension check and
    the file is accepted. *)
Lemma empty_extension_can_be_accepted :
  contains "." (name noext) = false
  /\ passesSize bareNames noext /\ passesType bareNames noext
  /\ getFileExtension (name noext) = ""
  /\ passesExtension bareNames noext
  /\ validateFile FormatBytes.formatBytes bareNames noext = Resolved valid.
Proof.
  repeat (split; [first [reflexivity | unfold passesSize; cbn; lia]|]).
  reflexivity.
Qed.

(** C10, amended.  Under a configuration whose extension allowlist
    does not hold the empty string, a candidate whose name has no dot
    (and is shorter than 2^32 code units, as every string of a
    JavaScript engine is) and that passes the size and declared-type
    checks has the empty string as extracted extension, fails the
    extension check and gets an invalid result. *)
Theorem validateFile_rejects_dotless_name fmt o f :
  contains "." (name f) = false ->
  len (name f) < 2 ^ 32 ->
  ~ In "" (allowedExtensions o) ->
  passesSize o f -> passesType o f ->
  getFileExtension (name f) = ""
  /\ ~ passesExtension o f
  /\ validateFile fmt o f = Resolved (invalid (extensionMessage o "")).
Proof.
  intros Hdot Hlen Hempty Hs Ht.
  assert (Hext : getFileExtension (name f) = "")
    by (apply getFileExtension_no_dot; [exact Hdot | lia]).
  assert (He : ~ passesExtension o f).
  { unfold passesExtension. rewrite Hext. cbn [toLowerCase map].
    rewrite includes_In. exact Hempty. }
  repeat split; [exact Hext | exact He |].
  unfold validateFile.
  rewrite (validateFileBody_extension_gate fmt o f Hs Ht He), Hext.
  reflexivity.
Qed.

Lemma validateFile_rejects_dotless_name_witness :
  contains "." (name noext) = false
  /\ ~ In "" (allowedExtensions scriptsToo)
  /\ validateFile FormatBytes.formatBytes scriptsToo
       (mkFile "noext" "application/pdf" 5 (Loaded pdfBytes))
     = Resolved (invalid
         "Unsupported file extension: . Allowed extensions: pdf, js, exe").
Proof.
  assert (Hempty : ~ In "" (allowedExtensions scriptsToo)).
  { cbn. intros [H|[H|[H|[]]]]; discriminate H. }
  split; [reflexivity|]. split; [exact Hempty|].
  apply (validateFile_rejects_dotless_name FormatBytes.formatBytes scriptsToo
           (mkFile "noext" "application/pdf" 5 (Loaded pdfBytes))).
  - reflexivity.
  - vm_compute. reflexivity.
  - exact Hempty.
  - unfold passesSize; cbn; lia.
  - reflexivity.
Defined.

End ValidatorProperties.

(* ================================================================== *)
(** ** Further properties of the helpers of the validator *)

Module SanitizeProperties.
Import JsString JsStringFacts Regex SanitizeFacts.

(** X1.  Whatever the name, the sanitized name holds none of the
    replaced characters and no whitespace, has no two underscores in a
    row, does not begin with an underscore and has at most 255 code
    units. *)
Theorem sanitizeFileName_output_shape x :
  allChars notDangerous (sanitizeFileName x) = true
  /\ allChars notSpace (sanitizeFileName x) = true
  /\ noUnderscoreRun (sanitizeFileName x) = true
  /\ startsWithUnderscore (sanitizeFileName x) = false
  /\ (String.length (sanitizeFileName x) <= 255)%nat.
Proof.
  pose proof (sanitizeFileName_tidy x) as H. apply tidy_iff in H.
  destruct H as (H1 & H2 & H3 & H4).
  repeat split; try assumption. apply sanitizeFileName_length.
Qed.

(** X2.  Sanitization never makes a name longer. *)
Theorem sanitizeFileName_never_longer x :
  (String.length (sanitizeFileName x) <= String.length x)%nat.
Proof.
  rewrite sanitizeFileName_take, take_length.
  pose proof (cleaned_length x). lia.
Qed.

(** X3.  The names that sanitization leaves unchanged, and which
    therefore go on to the later checks, are exactly the tidy names of
    at most 255 code units that do not end in an underscore. *)
Theorem sanitizeFileName_fixed_points x :
  sanitizeFileName x = x
  <-> tidy x = true /\ endsWithUnderscore x = false
      /\ (String.length x <= 255)%nat.
Proof.
  split.
  - intros H. repeat split.
    + rewrite <- H. apply sanitizeFileName_tidy.
    + assert (Hs : sanitizeFileName (sanitizeFileName x) = sanitizeFileName x)
        by (rewrite H; exact H).
      apply sanitizeFileName_stable_iff in Hs. rewrite H in Hs. exact Hs.
    + rewrite <- H. apply sanitizeFileName_length.
  - intros (Ht & He & Hl).
    rewrite (sanitizeFileName_of_tidy x Ht Hl). apply dropTrailing_id, He.
Qed.

(** X4.  Two passes always suffice: a third pass of sanitization changes
    nothing. *)
Theorem sanitizeFileName_settles_after_two x :
  sanitizeFileName (sanitizeFileName (sanitizeFileName x))
  = sanitizeFileName (sanitizeFileName x).
Proof.
  apply sanitizeFileName_stable_iff.
  rewrite sanitizeFileName_twice. apply dropTrailing_end.
Qed.

Lemma allChars_ext p q s :
  (forall c, p c = q c) -> allChars p s = allChars q s.
Proof.
  intros H. induction s as [|a s IH]; cbn; [reflexivity|].
  rewrite H, IH. reflexivity.
Qed.

Lemma replaceClass_underscores cls s :
  allChars isUnderscore (replaceClass cls s)
  = allChars (fun c => cls c || isUnderscore c) s.
Proof.
  unfold replaceClass. induction s as [|a s IH]; [reflexivity|].
  cbn [map allChars]. rewrite IH. destruct (cls a); reflexivity.
Qed.

Lemma replaceRunsFrom_underscores cls b s :
  allChars isUnderscore (replaceRunsFrom cls b s)
  = allChars (fun c => cls c || isUnderscore c) s.
Proof.
  revert b. induction s as [|a s IH]; intros b; [reflexivity|].
  cbn [replaceRunsFrom allChars].
  destruct (cls a); [destruct b|]; cbn [allChars orb]; rewrite IH;
    reflexivity.
Qed.

Lemma dropLeading_underscores s :
  allChars isUnderscore (dropLeading s) = allChars isUnderscore s.
Proof.
  induction s as [|a s IH]; [reflexivity|].
  cbn [dropLeading]. destruct (isUnderscore a) eqn:E; [|reflexivity].
  cbn [allChars]. rewrite E, IH. reflexivity.
Qed.

Lemma dropTrailing_empty_iff s :
  dropTrailing s = EmptyString <-> allChars isUnderscore s = true.
Proof.
  induction s as [|a s IH]; [cbn; tauto|].
  cbn [dropTrailing allChars].
  destruct (dropTrailing s) as [|b r].
  - destruct (isUnderscore a); cbn [andb].
    + rewrite <- IH. tauto.
    + split; discriminate.
  - split; [discriminate|]. intros H.
    apply andb_true_iff in H as [_ H]. apply IH in H. discriminate.
Qed.

Lemma take_empty_iff n s :
  take (S n) s = EmptyString <-> s = EmptyString.
Proof. destruct s; cbn; split; congruence. Qed.

(** X5.  Sanitization wipes a name out entirely exactly when the name
    holds nothing but replaced characters, whitespace and
    underscores. *)
Theorem sanitizeFileName_empty_iff x :
  sanitizeFileName x = EmptyString <-> allChars blank x = true.
Proof.
  rewrite sanitizeFileName_take.
  change 255%nat with (S 254). rewrite take_empty_iff.
  unfold cleaned, trimUnderscores, replaceRuns.
  rewrite dropTrailing_empty_iff, dropLeading_underscores.
  rewrite (replaceRunsFrom_underscores isUnderscore).
  rewrite (allChars_ext _ isUnderscore) by (intros c; apply orb_diag).
  rewrite (replaceRunsFrom_underscores isSpace).
  assert (Hstep : forall s,
             allChars (fun c => isSpace c || isUnderscore c)
               (replaceClass isDangerous s)
             = allChars blank s).
  { intros s. unfold replaceClass, blank.
    induction s as [|a s IH]; [reflexivity|].
    cbn [map allChars]. rewrite IH. f_equal.
    destruct (isDangerous a); reflexivity. }
  rewrite Hstep. tauto.
Qed.

End SanitizeProperties.

Module ExtensionProperties.
Import JsString JsStringFacts ExtensionFacts ValidatorFacts.

Lemma getFileExtension_len s : len (getFileExtension s) <= len s.
Proof.
  rewrite getFileExtension_unfold. unfold len. rewrite drop_length. lia.
Qed.

(** The name splits at its last dot. *)
Lemma lastIndexOf_splits c s :
  0 <= lastIndexOf c s ->
  s = take (Z.to_nat (lastIndexOf c s)) s
      ++ String c (drop (Z.to_nat (lastIndexOf c s + 1)) s).
Proof.
  induction s as [|a s IH]; cbn [lastIndexOf]; [lia|].
  pose proof (lastIndexOf_bounds c s) as B.
  destruct (0 <=? lastIndexOf c s) eqn:E.
  - apply Z.leb_le in E. intros _.
    specialize (IH E).
    replace (Z.to_nat (lastIndexOf c s + 1 + 1))
      with (S (Z.to_nat (lastIndexOf c s + 1))) by lia.
    replace (Z.to_nat (lastIndexOf c s + 1))
      with (S (Z.to_nat (lastIndexOf c s))) in * by lia.
    set (n := Z.to_nat (lastIndexOf c s)) in *.
    change (String a s = String a (take n s ++ String c (drop (S n) s))).
    f_equal. exact IH.
  - destruct (Ascii.eqb a c) eqn:Ea; [|lia]. intros _.
    apply Ascii.eqb_eq in Ea. subst a. reflexivity.
Qed.

(** With the last dot past the first position, the extension is what
    follows that dot. *)
Lemma getFileExtension_after_dot s :
  1 <= lastIndexOf "." s -> len s <= 2 ^ 32 ->
  getFileExtension s = drop (Z.to_nat (lastIndexOf "." s + 1)) s.
Proof.
  intros Hi Hl. rewrite getFileExtension_unfold.
  pose proof (lastIndexOf_bounds "." s) as B.
  unfold toUint32. rewrite Z.mod_small by lia.
  f_equal. lia.
Qed.

(** X6.  The extracted extension never contains a dot (for names below
    the 2^32 code units at which the 32-bit index would wrap). *)
Theorem getFileExtension_has_no_dot s :
  len s < 2 ^ 32 -> contains "." (getFileExtension s) = false.
Proof.
  intros Hl.
  destruct (getFileExtension_dotless_or_huge s) as [H|H]; [exact H|].
  pose proof (getFileExtension_len s). lia.
Qed.

Lemma getFileExtension_has_no_dot_witness :
  len "archive.tar.gz" < 2 ^ 32
  /\ getFileExtension "archive.tar.gz" = "gz"
  /\ contains "." (getFileExtension "archive.tar.gz") = false.
Proof.
  assert (Hl : len "archive.tar.gz" < 2 ^ 32) by (vm_compute; reflexivity).
  split; [exact Hl|]. split; [reflexivity|].
  exact (getFileExtension_has_no_dot "archive.tar.gz" Hl).
Defined.

(** X7.  When the last dot of a name is not its first character, the
    name is its stem, a dot and the extracted extension: nothing is
    lost or added. *)
Theorem getFileExtension_splits_name s :
  1 <= lastIndexOf "." s -> len s < 2 ^ 32 ->
  s = take (Z.to_nat (lastIndexOf "." s)) s
      ++ String "." (getFileExtension s).
Proof.
  intros Hi Hl.
  rewrite getFileExtension_after_dot by lia.
  apply lastIndexOf_splits. lia.
Qed.

Lemma getFileExtension_splits_name_witness :
  1 <= lastIndexOf "." "archive.tar.gz"
  /\ "archive.tar.gz" = "archive.tar" ++ String "." (getFileExtension "archive.tar.gz").
Proof.
  assert (Hi : 1 <= lastIndexOf "." "archive.tar.gz") by (vm_compute; discriminate).
  split; [exact Hi|].
  exact (getFileExtension_splits_name "archive.tar.gz" Hi
           ltac:(vm_compute; reflexivity)).
Defined.

(** X8.  A name whose only dot is its first character, such as
    [.htaccess], has the empty extension: the text after the dot is not
    taken for one. *)
Theorem getFileExtension_leading_dot rest :
  contains "." rest = false -> len rest < 2 ^ 32 ->
  getFileExtension (String "." rest) = EmptyString.
Proof.
  intros Hc Hl. rewrite getFileExtension_unfold.
  cbn [lastIndexOf]. rewrite (lastIndexOf_absent _ _ Hc).
  cbn [Z.leb Z.compare Ascii.eqb Bool.eqb].
  change (toUint32 (0 - 1) + 2) with (2 ^ 32 + 1).
  rewrite len_String, Z.min_r by lia.
  apply drop_all. unfold len in *. cbn [String.length]. lia.
Qed.

Lemma getFileExtension_leading_dot_witness :
  contains "." "htaccess" = false
  /\ getFileExtension ".htaccess" = "".
Proof.
  split; [reflexivity|].
  apply (getFileExtension_leading_dot "htaccess");
    [reflexivity | vm_compute; reflexivity].
Defined.

(** X9.  A validator whose extension allowlist holds only entries with
    a dot in them accepts no file at all, whatever its other options:
    raising the size ceiling or changing the MIME allowlist of the
    default validator does not help. *)
Theorem dotted_allowlist_accepts_nothing fmt o f :
  (forall e, In e (allowedExtensions o) ->
             contains "." e = true /\ len e < 2 ^ 32) ->
  exists msg, validateFile fmt o f = Resolved (invalid msg).
Proof.
  intros Hdot. unfold validateFile.
  destruct (validateFileBody_gate_cases fmt o f)
    as [[msg ->] | (_ & _ & He)]; [cbn; eauto|].
  exfalso. unfold passesExtension in He. apply includes_In in He.
  destruct (Hdot _ He) as [Hc Hl].
  exact (dotted_entry_never_matches (name f) _ Hc Hl eq_refl).
Qed.

Lemma dotted_allowlist_accepts_nothing_witness :
  maxSizeBytes fiftyMegabytes = 52428800
  /\ exists msg,
       validateFile FormatBytes.formatBytes fiftyMegabytes goodPdf
       = Resolved (invalid msg).
Proof.
  split; [reflexivity|].
  apply dotted_allowlist_accepts_nothing.
  intros e He. cbn in He.
  repeat (destruct He as [<-|He];
          [split; [reflexivity | vm_compute; reflexivity]|]).
  contradiction.
Defined.

End ExtensionProperties.

Module DenylistProperties.
Import JsString JsStringFacts ExtensionFacts ExtensionProperties
       ValidatorFacts Regex.

Lemma test_of_suffix pat stem suf :
  matchHere pat suf = true -> test pat (stem ++ suf) = true.
Proof.
  intros H. induction stem as [|a stem IH]; cbn [append].
  - destruct suf; cbn [test]; rewrite H; reflexivity.
  - cbn [test]. rewrite IH. apply orb_true_r.
Qed.

Lemma test_to_suffix pat s :
  test pat s = true ->
  exists stem suf, s = stem ++ suf /\ matchHere pat suf = true.
Proof.
  induction s as [|a s IH]; cbn [test]; intros H.
  - rewrite orb_false_r in H. exists EmptyString, EmptyString. auto.
  - apply orb_true_iff in H as [H|H].
    + exists EmptyString, (String a s). auto.
    + destruct (IH H) as (stem & suf & -> & Hm).
      exists (String a stem), suf. auto.
Qed.

(** The pattern matches a subject character by character, letters in
    either case. *)
Lemma matchHere_iff pat s :
  matchHere pat s = true <-> map upperAscii s = map upperAscii pat.
Proof.
  revert s. induction pat as [|p pat IH]; intros [|c s]; cbn [matchHere map];
    try (split; [reflexivity | reflexivity]);
    try (split; discriminate).
  unfold matchCharCI. rewrite andb_true_iff, Ascii.eqb_eq, IH.
  split; [intros [-> ->]; reflexivity | intros [= -> ->]; auto].
Qed.

(** X10.  A denylist pattern matches a name exactly when the name ends
    in the pattern's text, letters taken in either case: the match is a
    suffix test and looks at nothing before the suffix. *)
Theorem matchesDenylist_iff_suffix filename :
  matchesDenylist filename = true
  <-> exists pattern stem suffix,
        In pattern suspiciousPatterns
        /\ filename = stem ++ suffix
        /\ map upperAscii suffix = map upperAscii pattern.
Proof.
  unfold matchesDenylist. rewrite existsb_exists. split.
  - intros (pat & Hin & Ht).
    destruct (test_to_suffix _ _ Ht) as (stem & suf & -> & Hm).
    exists pat, stem, suf. rewrite <- matchHere_iff. auto.
  - intros (pat & stem & suf & Hin & -> & Hm).
    exists pat. split; [exact Hin|].
    apply test_of_suffix, matchHere_iff, Hm.
Qed.

Lemma matchChar_dot c : matchCharCI "." c = true -> c = "."%char.
Proof.
  destruct c as [[] [] [] [] [] [] [] []]; vm_compute; congruence.
Qed.

Lemma matchChar_letter p c :
  isLowerAscii p = true -> matchCharCI p c = true ->
  lowerChar c = p /\ c <> "."%char.
Proof.
  intros Hp.
  destruct p as [[] [] [] [] [] [] [] []]; try discriminate Hp; clear Hp;
    destruct c as [[] [] [] [] [] [] [] []]; vm_compute; intros H;
    try discriminate H; (split; [reflexivity | discriminate]).
Qed.

Lemma matchHere_letters letters s :
  allChars isLowerAscii letters = true -> matchHere letters s = true ->
  toLowerCase s = letters /\ contains "." s = false.
Proof.
  unfold toLowerCase. revert s.
  induction letters as [|p letters IH]; intros [|c s] Hl Hm;
    cbn [matchHere] in Hm; try discriminate; [split; reflexivity|].
  cbn [allChars] in Hl. apply andb_true_iff in Hl as [Hp Hl].
  apply andb_true_iff in Hm as [Hc Hm].
  destruct (matchChar_letter p c Hp Hc) as [Hlow Hnd].
  destruct (IH s Hl Hm) as [Hs Hcs].
  cbn [map contains]. rewrite Hlow, Hs, Hcs. split; [reflexivity|].
  rewrite orb_false_r. apply Ascii.eqb_neq, Hnd.
Qed.

Lemma lastIndexOf_app_last c s t :
  contains c t = false -> lastIndexOf c (s ++ String c t) = len s.
Proof.
  intros Ht. induction s as [|a s IH]; cbn [append lastIndexOf].
  - rewrite (lastIndexOf_absent _ _ Ht). cbn. rewrite Ascii.eqb_refl.
    reflexivity.
  - rewrite IH, len_String.
    pose proof (len_nonneg s).
    destruct (0 <=? len s) eqn:E; [reflexivity | apply Z.leb_gt in E; lia].
Qed.

Lemma drop_app_exact s c t :
  drop (String.length s + 1) (s ++ String c t) = t.
Proof.
  induction s as [|a s IH]; [reflexivity|]. cbn. exact IH.
Qed.

Lemma append_length s t :
  String.length (s ++ t) = (String.length s + String.length t)%nat.
Proof. induction s; cbn; congruence. Qed.

(** The extension of a name that ends in a dot and letters. *)
Lemma getFileExtension_of_suffix stem ext :
  contains "." ext = false -> len (stem ++ String "." ext) < 2 ^ 32 ->
  getFileExtension (stem ++ String "." ext) = ext
  \/ getFileExtension (stem ++ String "." ext) = EmptyString.
Proof.
  intros Hc Hl. destruct stem as [|a stem].
  - right. cbn [append]. apply getFileExtension_leading_dot; [exact Hc|].
    cbn [append] in Hl. rewrite len_String in Hl. lia.
  - left. set (s := String a stem) in *.
    assert (Hi : lastIndexOf "." (s ++ String "." ext) = len s)
      by (apply lastIndexOf_app_last, Hc).
    assert (Hpos : 1 <= len s)
      by (unfold s; rewrite len_String; pose proof (len_nonneg stem); lia).
    rewrite getFileExtension_after_dot by lia.
    rewrite Hi. unfold len. replace (Z.to_nat (Z.of_nat (String.length s) + 1))
      with (String.length s + 1)%nat by lia.
    apply drop_app_exact.
Qed.

(** A name that a denylist pattern matches has one of the nine
    executable extensions, or none when it is the bare suffix. *)
Lemma denylisted_extension filename :
  len filename < 2 ^ 32 -> matchesDenylist filename = true ->
  In (toLowerCase (getFileExtension filename)) executableExtensions.
Proof.
  intros Hl Hm. unfold matchesDenylist in Hm.
  apply existsb_exists in Hm as (pat & Hin & Ht).
  destruct (test_to_suffix _ _ Ht) as (stem & suf & -> & Hsuf).
  assert (Hcase : forall letters,
             pat = String "." letters ->
             allChars isLowerAscii letters = true ->
             toLowerCase (getFileExtension (stem ++ suf)) = letters
             \/ toLowerCase (getFileExtension (stem ++ suf)) = EmptyString).
  { intros letters -> Hlow.
    destruct suf as [|d ext]; [discriminate|].
    cbn [matchHere] in Hsuf. apply andb_true_iff in Hsuf as [Hd Hext].
    apply matchChar_dot in Hd. subst d.
    destruct (matchHere_letters letters ext Hlow Hext) as [Hlc Hnd].
    destruct (getFileExtension_of_suffix stem ext Hnd Hl) as [-> | ->];
      [left; exact Hlc | right; reflexivity]. }
  unfold executableExtensions. cbn [suspiciousPatterns In] in Hin.
  repeat (destruct Hin as [<-|Hin];
          [destruct (Hcase _ eq_refl eq_refl) as [-> | ->]; cbn; tauto|]).
  contradiction.
Qed.

(** X11.  Under an extension allowlist that names none of the nine
    executable extensions nor the empty extension, no file is ever
    turned away with the security message: whatever the denylist would
    match has already failed the extension check. *)
Theorem denylist_needs_executable_allowlist fmt o f :
  len (name f) < 2 ^ 32 ->
  (forall e, In e (allowedExtensions o) -> ~ In e executableExtensions) ->
  validateFile fmt o f <> Resolved (invalid securityMessage).
Proof.
  intros Hl Hallow Hres. unfold validateFile, validateFileBody in Hres.
  destruct (maxSizeBytes o <? size f);
    [cbn in Hres; discriminate Hres|].
  destruct (includes (type f) (allowedTypes o)); cbn [negb] in Hres;
    [|cbn in Hres; discriminate Hres].
  destruct (includes (toLowerCase (getFileExtension (name f)))
              (allowedExtensions o)) eqn:Hext; cbn [negb] in Hres;
    [|cbn in Hres; discriminate Hres].
  apply includes_In in Hext.
  destruct (matchesDenylist (name f)) eqn:Hd.
  - (* the denylist matches: the allowlist must name the extension *)
    exact (Hallow _ Hext (denylisted_extension _ Hl Hd)).
  - (* it does not: the later steps give other results *)
    destruct (negb (sanitizeFileName (name f) =? name f)%string);
      [cbn in Hres; discriminate Hres|].
    rewrite performSecurityChecks_await in Hres.
    unfold performSecurityChecks in Hres.
    fold (matchesDenylist (name f)) in Hres. rewrite Hd in Hres.
    destruct (type f =? "application/pdf")%string;
      [|vm_compute in Hres; discriminate Hres].
    unfold validatePdfHeader in Hres.
    destruct (content f) as [bytes| |e];
      [destruct (headerOf bytes =? "%PDF")%string|..];
      vm_compute in Hres; discriminate Hres.
Qed.

Lemma denylist_needs_executable_allowlist_witness :
  len (name invoiceExe) < 2 ^ 32
  /\ matchesDenylist (name invoiceExe) = true
  /\ validateFile FormatBytes.formatBytes pdfOnly invoiceExe
     <> Resolved (invalid securityMessage).
Proof.
  assert (Hl : len (name invoiceExe) < 2 ^ 32) by (vm_compute; reflexivity).
  split; [exact Hl|]. split; [reflexivity|].
  apply (denylist_needs_executable_allowlist FormatBytes.formatBytes
           pdfOnly invoiceExe Hl).
  intros e He. cbn in He. destruct He as [<-|[]].
  cbn. intros H.
  repeat (destruct H as [H|H]; [discriminate H|]). exact H.
Defined.

End DenylistProperties.

Module ValidatorExtras.
Import JsString JsStringFacts ExtensionFacts SanitizeFacts ValidatorFacts.

(** X12.  The content of a file that is not declared [application/pdf]
    is never looked at: verdict, message and cleaned name are the same
    for every content, readable or not, so an image is accepted on its
    name, declared type and size alone. *)
Theorem non_pdf_content_never_read fmt o f :
  type f <> "application/pdf" ->
  exists verdict message cleanedName,
    forall c,
      validateFile fmt o (withContent f c) =
      Resolved {| isValid := verdict;
                  error := message;
                  sanitizedFile :=
                    option_map
                      (fun n => {| name := n; type := type f;
                                   size := size f; content := c |})
                      cleanedName |}.
Proof.
  intros Hty. apply String.eqb_neq in Hty.
  unfold validateFile, validateFileBody, performSecurityChecks.
  cbn [withContent name type size content].
  destruct (maxSizeBytes o <? size f);
    [exists false, (Some (sizeMessage fmt o)), None; reflexivity|].
  destruct (includes (type f) (allowedTypes o)); cbn [negb];
    [|exists false, (Some (typeMessage o f)), None; reflexivity].
  destruct (includes _ (allowedExtensions o)); cbn [negb];
    [|exists false,
        (Some (extensionMessage o (getFileExtension (name f)))), None;
      reflexivity].
  destruct (sanitizeFileName (name f) =? name f)%string; cbn [negb];
    [|exists true, None, (Some (sanitizeFileName (name f))); reflexivity].
  rewrite Hty.
  destruct (existsb _ suspiciousPatterns);
    [exists false, (Some securityMessage), None; reflexivity
    |exists true, None, None; reflexivity].
Qed.

Lemma non_pdf_content_never_read_witness :
  type photoPng <> "application/pdf"
  /\ validateFile FormatBytes.formatBytes imagesOnly
       (withContent photoPng (Loaded pdfBytes)) = Resolved valid
  /\ validateFile FormatBytes.formatBytes imagesOnly
       (withContent photoPng ReadError) = Resolved valid.
Proof.
  assert (Hty : type photoPng <> "application/pdf") by discriminate.
  split; [exact Hty|].
  destruct (non_pdf_content_never_read FormatBytes.formatBytes imagesOnly
              photoPng Hty) as (v & m & n & H).
  pose proof (H (Loaded jpegBytes)) as H0.
  change (withContent photoPng (Loaded jpegBytes)) with photoPng in H0.
  assert (Hv : validateFile FormatBytes.formatBytes imagesOnly photoPng
               = Resolved valid) by reflexivity.
  rewrite Hv in H0. injection H0 as <- <- Hn.
  destruct n; [discriminate Hn|].
  split; rewrite H; reflexivity.
Defined.

(** X13.  An acceptance without renaming is earned: when the result is
    valid and carries no sanitized file, the file is within the size
    limit, its type and extension are on the allowlists, its name is
    already clean and matches no denylist pattern, and, if it is
    declared a PDF, its content was read and starts with [%PDF]. *)
Theorem plain_acceptance_is_sound fmt o f :
  validateFile fmt o f = Resolved valid ->
  passesSize o f /\ passesType o f /\ passesExtension o f
  /\ sanitizeFileName (name f) = name f
  /\ matchesDenylist (name f) = false
  /\ (type f = "application/pdf" ->
      exists bytes, content f = Loaded bytes /\ firstn 4 bytes = pdfMagic).
Proof.
  intros Hres. unfold validateFile in Hres.
  destruct (validateFileBody_gate_cases fmt o f)
    as [[msg Hm] | (Hs & Ht & He)].
  - rewrite Hm in Hres. discriminate Hres.
  - rewrite (validateFileBody_past_gates fmt o f Hs Ht He) in Hres.
    destruct (sanitizeFileName (name f) =? name f)%string eqn:Hn;
      [|discriminate Hres].
    apply String.eqb_eq in Hn.
    unfold performSecurityChecks in Hres.
    fold (matchesDenylist (name f)) in Hres.
    destruct (matchesDenylist (name f)); [discriminate Hres|].
    repeat split; try assumption.
    intros Hty. rewrite Hty, String.eqb_refl in Hres.
    unfold validatePdfHeader in Hres.
    destruct (content f) as [bytes| |e]; try discriminate Hres.
    exists bytes. split; [reflexivity|].
    destruct (headerOf bytes =? "%PDF")%string eqn:Hh;
      [|discriminate Hres].
    apply headerOf_magic, Hh.
Qed.

Lemma plain_acceptance_is_sound_witness :
  validateFile FormatBytes.formatBytes pdfOnly goodPdf = Resolved valid
  /\ passesExtension pdfOnly goodPdf
  /\ sanitizeFileName (name goodPdf) = name goodPdf.
Proof.
  assert (Hv : validateFile FormatBytes.formatBytes pdfOnly goodPdf
               = Resolved valid) by reflexivity.
  split; [exact Hv|].
  destruct (plain_acceptance_is_sound FormatBytes.formatBytes pdfOnly
              goodPdf Hv) as (_ & _ & He & Hn & _).
  split; [exact He | exact Hn].
Defined.

(** X14.  In the result of every call an error message is present
    exactly when the result is invalid, and a sanitized file is present
    only in a valid result, where it is the input under its cleaned
    name, which differs from the original one. *)
Theorem validateFile_result_fields fmt o f :
  exists r, validateFile fmt o f = Resolved r
    /\ (isValid r = false <-> error r <> None)
    /\ (forall f', sanitizedFile r = Some f' ->
          isValid r = true
          /\ f' = newFile f (sanitizeFileName (name f)) (type f)
          /\ name f' <> name f).
Proof.
  unfold validateFile.
  destruct (validateFileBody_gate_cases fmt o f)
    as [[msg ->] | (Hs & Ht & He)].
  - eexists. split; [reflexivity|]. cbn. split; [|discriminate].
    split; [discriminate | reflexivity].
  - rewrite (validateFileBody_past_gates fmt o f Hs Ht He).
    destruct (sanitizeFileName (name f) =? name f)%string eqn:Hn.
    + destruct (performSecurityChecks f) as [r|e] eqn:E; cbn.
      * exists r. split; [reflexivity|].
        destruct (performSecurityChecks_results f r E) as [->|[->| ->]];
          cbn; (split; [split; congruence | discriminate]).
      * eexists. split; [reflexivity|]. cbn. split; [|discriminate].
        split; [discriminate | reflexivity].
    + eexists. split; [reflexivity|]. cbn. split.
      * split; [discriminate | congruence].
      * intros f' [= <-]. repeat split.
        apply String.eqb_neq, Hn.
Qed.

End ValidatorExtras.

(* ================================================================== *)
(** ** Properties of the upload zone and of the timeline *)

Module UploadZoneProperties.
Import JsString JsStringFacts ExtensionFacts ValidatorFacts.

Lemma default_validator_invalid fmt f :
  exists msg, validateFile fmt fileValidator f = Resolved (invalid msg).
Proof.
  unfold validateFile.
  destruct (validateFileBody_gate_cases fmt fileValidator f)
    as [[msg ->] | (_ & _ & He)]; [cbn; eauto|].
  exfalso. unfold passesExtension in He.
  rewrite fileValidator_options, default_extensions_never_match in He.
  discriminate.
Qed.

Lemma uploadOne_records_error fmt file t :
  exists msg,
    uploadOne fmt file t = Recorded
      {| uf_id := fileId t; uf_file := file; uf_preview := "";
         uf_processed := None; uf_progress := None;
         uf_error := Some msg;
         uf_size := size file; uf_uploadedAt := pushedAt t;
         uf_validationResult := Some (invalid msg) |}.
Proof.
  destruct (default_validator_invalid fmt file) as [msg Hm].
  exists msg. unfold uploadOne. rewrite Hm. reflexivity.
Qed.

(** X16.  With the validator it ships with, the upload zone never
    starts reading a file: every file handed in, in order, is recorded
    with an error message and an invalid validation result, so the
    list given to [onFilesUploaded] holds no usable file. *)
Theorem upload_zone_records_only_errors fmt maxFiles files :
  Z.of_nat (List.length files) <= maxFiles ->
  exists entries,
    handleFileUpload fmt maxFiles files = Some (List.map Recorded entries)
    /\ List.map uf_file entries = List.map fst files
    /\ List.map uf_id entries = List.map (fun ft => fileId (snd ft)) files
    /\ Forall (fun entry =>
                 exists msg,
                   uf_error entry = Some msg
                   /\ uf_validationResult entry = Some (invalid msg)
                   /\ uf_preview entry = "")
         entries.
Proof.
  intros Hmax. unfold handleFileUpload.
  apply Z.ltb_ge in Hmax. rewrite Hmax. clear Hmax. cbv beta iota.
  induction files as [|[file t] files IH].
  - exists []. repeat split. constructor.
  - destruct IH as (entries & He & Hf & Hi & Hall).
    destruct (uploadOne_records_error fmt file t) as [msg Hm].
    assert (He' : List.map (fun ft => uploadOne fmt (fst ft) (snd ft)) files
                  = List.map Recorded entries) by congruence.
    eexists (_ :: entries). cbn [List.map fst snd uf_file uf_id].
    rewrite Hm, He', Hf, Hi. repeat split.
    constructor; [|exact Hall]. exists msg. repeat split.
Qed.

Lemma upload_zone_records_only_errors_witness :
  exists entries,
    handleFileUpload FormatBytes.formatBytes 10
      [(goodPdf, mkTick "1700000000000-k3j9x2m1q" 1700000000123)]
    = Some (List.map Recorded entries)
    /\ List.map uf_file entries = [goodPdf].
Proof.
  destruct (upload_zone_records_only_errors FormatBytes.formatBytes 10
              [(goodPdf, mkTick "1700000000000-k3j9x2m1q" 1700000000123)])
    as (entries & He & Hf & _).
  - cbn. lia.
  - exists entries. split; [exact He | exact Hf].
Defined.

End UploadZoneProperties.

Module TimelineProperties.

Lemma setHas_In x s : setHas x s = true <-> In x s.
Proof.
  unfold setHas. rewrite existsb_exists. split.
  - intros (y & Hy & E). apply String.eqb_eq in E. subst. exact Hy.
  - intros H. exists x. split; [exact H | apply String.eqb_refl].
Qed.

Lemma setAdd_In x y s : In y (setAdd x s) <-> y = x \/ In y s.
Proof.
  unfold setAdd. destruct (setHas x s) eqn:E.
  - apply setHas_In in E. split; [tauto|]. intros [->|H]; assumption.
  - rewrite in_app_iff. cbn. intuition congruence.
Qed.

(** The members of the set the loop builds: what it started from and
    the identifiers of the steps it walked over. *)
Lemma completedLoop_In steps n acc completed :
  completedLoop steps n acc = Some completed ->
  (n <= List.length steps)%nat
  /\ forall x, In x completed
               <-> In x acc \/ In x (List.map step_id (firstn n steps)).
Proof.
  revert steps acc. induction n as [|n IH]; intros steps acc H; cbn in H.
  - injection H as <-. split; [lia|]. intros x. cbn. tauto.
  - destruct steps as [|step rest]; [discriminate|].
    destruct (IH _ _ H) as [Hl Hin]. split; [cbn; lia|].
    intros x. rewrite Hin, setAdd_In. cbn. intuition congruence.
Qed.

Lemma completedLoop_runs steps n acc :
  (n <= List.length steps)%nat ->
  exists completed, completedLoop steps n acc = Some completed.
Proof.
  revert steps acc. induction n as [|n IH]; intros steps acc H; cbn.
  - eauto.
  - destruct steps as [|step rest]; cbn in H; [lia|].
    apply IH. lia.
Qed.

Lemma nth_error_firstn_In {A} (l : list A) i n x :
  nth_error l i = Some x -> (i < n)%nat -> In x (firstn n l).
Proof.
  revert i n. induction l as [|a l IH]; intros [|i] [|n] H Hlt;
    cbn in *; try discriminate; try lia.
  - left. congruence.
  - right. apply (IH i); [exact H | lia].
Qed.

(** X17.  The effect that fills [completedSteps] fails exactly when
    [currentStep] exceeds the number of steps; otherwise the set it
    stores holds the identifiers of the first [currentStep] steps and
    nothing else. *)
Theorem completedStepsEffect_bounds steps currentStep :
  (completedStepsEffect steps currentStep = None
   <-> Z.of_nat (List.length steps) < currentStep)
  /\ forall completed,
       completedStepsEffect steps currentStep = Some completed ->
       forall x, In x completed
                 <-> In x (List.map step_id
                             (firstn (Z.to_nat currentStep) steps)).
Proof.
  unfold completedStepsEffect. split.
  - split.
    + intros H.
      destruct (Z_lt_le_dec (Z.of_nat (List.length steps)) currentStep)
        as [Hlt|Hle]; [exact Hlt|].
      destruct (completedLoop_runs steps (Z.to_nat currentStep) [])
        as [c Hc]; [lia | congruence].
    + intros Hlt.
      destruct (completedLoop steps (Z.to_nat currentStep) []) eqn:E;
        [|reflexivity].
      apply completedLoop_In in E. lia.
  - intros completed H x.
    destruct (completedLoop_In _ _ _ _ H) as [_ Hin].
    rewrite Hin. cbn. tauto.
Qed.

(** X18.  Once the effect has stored the completed set for the current
    step, no step is ever shown as active: the step at index
    [currentStep - 1], the only candidate, is already in the completed
    set, and completed takes precedence. *)
Theorem timeline_never_shows_active
    steps currentStep isProcessing completed errorSteps index step :
  completedStepsEffect steps currentStep = Some completed ->
  nth_error steps index = Some step ->
  getStepStatus completed errorSteps currentStep isProcessing step
    (Z.of_nat index) <> StatusActive.
Proof.
  intros Heff Hnth. unfold getStepStatus.
  destruct (setHas (step_id step) errorSteps); [discriminate|].
  destruct (setHas (step_id step) completed) eqn:Hc; [discriminate|].
  destruct (Z.of_nat index =? currentStep - 1) eqn:Hi;
    cbn [andb]; [|discriminate].
  destruct isProcessing; [|discriminate].
  exfalso. apply Z.eqb_eq in Hi.
  unfold completedStepsEffect in Heff.
  destruct (completedLoop_In _ _ _ _ Heff) as [_ Hin].
  assert (Hmem : In (step_id step) completed).
  { apply Hin. right. apply in_map.
    apply (nth_error_firstn_In _ index); [exact Hnth | lia]. }
  apply setHas_In in Hmem. congruence.
Qed.

Lemma timeline_never_shows_active_witness :
  completedStepsEffect defaultProcessingSteps 3
    = Some ["upload"; "analysis"; "conversion"]
  /\ getStepStatus ["upload"; "analysis"; "conversion"] [] 3 true
       (mkStep "conversion" "Format Conversion" "Converting to DOCX format"
          "RefreshCw" StatusPending None None) 2
     <> StatusActive.
Proof.
  split; [reflexivity|].
  exact (timeline_never_shows_active defaultProcessingSteps 3 true
           ["upload"; "analysis"; "conversion"] [] 2%nat _
           eq_refl eq_refl).
Defined.

Lemma nodup_position {A B} (f : A -> B) (l : list A) i n x :
  NoDup (List.map f l) -> nth_error l i = Some x ->
  In (f x) (List.map f (firstn n l)) -> (i < n)%nat.
Proof.
  revert i n. induction l as [|a l IH]; intros [|i] [|n] Hnd Hnth Hin;
    cbn in *; try discriminate; try contradiction; try lia.
  inversion Hnd as [|? ? Hna Hnd']; subst.
  destruct Hin as [Heq|Hin].
  - exfalso. apply Hna. rewrite Heq. apply in_map.
    eapply nth_error_In, Hnth.
  - pose proof (IH i n Hnd' Hnth Hin). lia.
Qed.

(** X19.  When the steps have distinct identifiers and the effect has
    stored the completed set for the current step, the status of a step
    depends on its position alone, errors apart: every step before
    index [currentStep] shows as completed and every later one as
    pending. *)
Theorem timeline_status_by_position
    steps currentStep isProcessing completed errorSteps index step :
  NoDup (List.map step_id steps) ->
  completedStepsEffect steps currentStep = Some completed ->
  nth_error steps index = Some step ->
  getStepStatus completed errorSteps currentStep isProcessing step
    (Z.of_nat index)
  = if setHas (step_id step) errorSteps then StatusError
    else if Z.of_nat index <? currentStep then StatusCompleted
    else StatusPending.
Proof.
  intros Hnd Heff Hnth. unfold getStepStatus.
  destruct (setHas (step_id step) errorSteps); [reflexivity|].
  unfold completedStepsEffect in Heff.
  destruct (completedLoop_In _ _ _ _ Heff) as [_ Hin].
  destruct (Z.of_nat index <? currentStep) eqn:Hpos.
  - apply Z.ltb_lt in Hpos.
    assert (Hmem : In (step_id step) completed).
    { apply Hin. right. apply in_map.
      apply (nth_error_firstn_In _ index); [exact Hnth | lia]. }
    apply setHas_In in Hmem. rewrite Hmem. reflexivity.
  - apply Z.ltb_ge in Hpos.
    destruct (setHas (step_id step) completed) eqn:Hc.
    + exfalso. apply setHas_In, Hin in Hc. destruct Hc as [[]|Hc].
      pose proof (nodup_position step_id steps index _ step Hnd Hnth Hc).
      lia.
    + destruct (Z.of_nat index =? currentStep - 1) eqn:Hi;
        [apply Z.eqb_eq in Hi; lia | reflexivity].
Qed.

Lemma timeline_status_by_position_witness :
  NoDup (List.map step_id defaultProcessingSteps)
  /\ completedStepsEffect defaultProcessingSteps 3
     = Some ["upload"; "analysis"; "conversion"]
  /\ getStepStatus ["upload"; "analysis"; "conversion"] [] 3 true
       (mkStep "bates" "Bates Numbering"
          "Applying Bates stamps for legal tracking"
          "Shield" StatusPending None None) 3
     = StatusPending.
Proof.
  assert (Hnd : NoDup (List.map step_id defaultProcessingSteps)).
  { cbn. repeat (constructor; [cbn; intuition discriminate|]). constructor. }
  split; [exact Hnd|]. split; [reflexivity|].
  exact (timeline_status_by_position defaultProcessingSteps 3 true
           ["upload"; "analysis"; "conversion"] [] 3%nat _
           Hnd eq_refl eq_refl).
Defined.

End TimelineProperties.

(* ================================================================== *)
(** ** Properties of the page component *)

Module PageProperties.
Import JsString JsStringFacts.

Lemma prefix_iff l s :
  String.prefix l s = true <-> exists rest, s = l ++ rest.
Proof.
  revert s. induction l as [|a l IH]; intros [|b s];
    cbn [String.prefix append].
  - split; [intros _; exists EmptyString; reflexivity | reflexivity].
  - split; [intros _; exists (String b s); reflexivity | reflexivity].
  - split; [discriminate | intros [r H]; discriminate].
  - destruct (ascii_dec a b) as [->|Hne].
    + rewrite IH. split; intros [r H]; exists r; congruence.
    + split; [discriminate | intros [r H]; congruence].
Qed.

(** X20.  The page's type check is a substring test: a declared type
    passes exactly when one of the six MIME literals occurs somewhere
    inside it, so text before or after an allowed type does not make it
    fail. *)
Theorem typeSupported_iff_substring t :
  typeSupported t = true
  <-> exists before literal after,
        In literal supportedTypeLiterals
        /\ t = before ++ literal ++ after.
Proof.
  unfold typeSupported. generalize supportedTypeLiterals as lits. intros lits.
  split.
  - induction t as [|c t IH]; cbn [searchAny]; intros H.
    + rewrite orb_false_r in H. apply existsb_exists in H as (l & Hin & Hp).
      apply prefix_iff in Hp as [rest Hr].
      exists EmptyString, l, rest. auto.
    + apply orb_true_iff in H as [H|H].
      * apply existsb_exists in H as (l & Hin & Hp).
        apply prefix_iff in Hp as [rest Hr].
        exists EmptyString, l, rest. auto.
      * destruct (IH H) as (b & l & a & Hin & ->).
        exists (String c b), l, a. auto.
  - intros (b & l & a & Hin & ->).
    induction b as [|c b IH]; cbn [append].
    + assert (Hex : existsb (fun l0 => String.prefix l0 (l ++ a)) lits = true).
      { apply existsb_exists. exists l. split; [exact Hin|].
        apply prefix_iff. eauto. }
      destruct (l ++ a); cbn [searchAny]; rewrite Hex; reflexivity.
    + cbn [searchAny]. rewrite IH. apply orb_true_r.
Qed.

Lemma filter_ne_In (fileId : string) ids x :
  In x (filter (fun id => negb (id =? fileId)%string) ids)
  <-> In x ids /\ x <> fileId.
Proof.
  rewrite filter_In, negb_true_iff, String.eqb_neq. tauto.
Qed.

(** X21.  Toggling a file flips whether it is selected and leaves the
    selection of every other file as it was; a selection without
    duplicates stays without duplicates. *)
Theorem toggleFileSelection_flips fileId prev :
  (In fileId (toggleFileSelection fileId prev) <-> ~ In fileId prev)
  /\ (forall other, other <> fileId ->
        (In other (toggleFileSelection fileId prev) <-> In other prev))
  /\ (NoDup prev -> NoDup (toggleFileSelection fileId prev)).
Proof.
  unfold toggleFileSelection.
  destruct (includes fileId prev) eqn:E.
  - apply includes_In in E. split; [|split].
    + rewrite filter_ne_In. tauto.
    + intros other Hne. rewrite filter_ne_In. tauto.
    + intros Hnd. apply NoDup_filter, Hnd.
  - assert (Hnot : ~ In fileId prev).
    { intros H. apply includes_In in H. congruence. }
    split; [|split].
    + rewrite in_app_iff. cbn. tauto.
    + intros other Hne. rewrite in_app_iff. cbn. intuition congruence.
    + intros Hnd. apply NoDup_app; [exact Hnd | |].
      * constructor; [intros [] | constructor].
      * intros x Hx [<-|[]]. exact (Hnot Hx).
Qed.

(** X22.  Selecting a file that was not selected and toggling it again
    gives back the very selection one started from. *)
Theorem toggleFileSelection_round_trip fileId prev :
  ~ In fileId prev ->
  toggleFileSelection fileId (toggleFileSelection fileId prev) = prev.
Proof.
  intros Hnot. unfold toggleFileSelection.
  destruct (includes fileId prev) eqn:E;
    [apply includes_In in E; contradiction|].
  assert (Hin : includes fileId (prev ++ [fileId]) = true).
  { apply includes_In, in_app_iff. right. left. reflexivity. }
  rewrite Hin, filter_app. cbn [filter].
  rewrite String.eqb_refl. cbn [negb]. rewrite app_nil_r.
  clear E Hin. induction prev as [|a prev IH]; [reflexivity|].
  cbn [filter].
  destruct (a =? fileId)%string eqn:Ea.
  - apply String.eqb_eq in Ea. subst. exfalso. apply Hnot. left. reflexivity.
  - cbn [negb]. f_equal. apply IH. intros H. apply Hnot. right. exact H.
Qed.

Lemma toggleFileSelection_round_trip_witness :
  ~ In "f3" ["f1"; "f2"]
  /\ toggleFileSelection "f3" (toggleFileSelection "f3" ["f1"; "f2"])
     = ["f1"; "f2"].
Proof.
  assert (Hnot : ~ In "f3" ["f1"; "f2"])
    by (cbn; intros [H|[H|[]]]; discriminate H).
  split; [exact Hnot|].
  exact (toggleFileSelection_round_trip "f3" ["f1"; "f2"] Hnot).
Defined.

(** X23.  [selectAllFiles] selects exactly the identifiers of the
    uploaded files that carry no error, and [removeFile] takes the file
    out of both the uploads and the selection while keeping every
    selected identifier backed by an uploaded file. *)
Theorem selection_stays_within_uploads uploadedFiles selectedFiles fileId :
  (forall id, In id (selectAllFiles uploadedFiles)
              <-> exists file, In file uploadedFiles
                               /\ hasError file = false /\ uf_id file = id)
  /\ (selectionWithinUploads uploadedFiles selectedFiles ->
      let (uploads', selected') :=
        removeFile fileId uploadedFiles selectedFiles in
      selectionWithinUploads uploads' selected'
      /\ ~ In fileId selected'
      /\ ~ In fileId (List.map uf_id uploads')).
Proof.
  split.
  - intros id. unfold selectAllFiles. rewrite in_map_iff. split.
    + intros (file & <- & Hin). apply filter_In in Hin as [Hin He].
      apply negb_true_iff in He. eauto.
    + intros (file & Hin & He & <-). exists file. split; [reflexivity|].
      apply filter_In. rewrite He. auto.
  - intros Hinv. unfold removeFile. repeat split.
    + intros id Hid. apply filter_ne_In in Hid as [Hid Hne].
      destruct (Hinv id Hid) as (file & Hin & <-).
      exists file. split; [|reflexivity].
      apply filter_In. split; [exact Hin|].
      apply negb_true_iff, String.eqb_neq, Hne.
    + intros H. apply filter_ne_In in H. tauto.
    + intros H. apply in_map_iff in H as (file & Hid & Hin).
      apply filter_In in Hin as [_ Hne].
      apply negb_true_iff, String.eqb_neq in Hne. contradiction.
Qed.

Lemma filler_zeros n rest :
  allChars (Ascii.eqb "0") rest = true ->
  filler n "0" rest = replicate n "0".
Proof.
  revert rest. induction n as [|n IH]; intros rest Hr; [reflexivity|].
  cbn [filler replicate]. destruct rest as [|c rest].
  - f_equal. apply IH. reflexivity.
  - cbn [allChars] in Hr. apply andb_true_iff in Hr as [Hc Hr].
    apply Ascii.eqb_eq in Hc. subst c. f_equal. apply IH, Hr.
Qed.

Lemma replicate_length n c : String.length (replicate n c) = n.
Proof. induction n; cbn; congruence. Qed.

Lemma append_len s t :
  String.length (s ++ t) = (String.length s + String.length t)%nat.
Proof. induction s; cbn; congruence. Qed.

(** X24.  Padding a Bates number with [padStart(6, '0')] only ever adds
    zeros in front: the text comes out with as many leading zeros as it
    is short of six characters, and a text of six characters or more,
    sign included, comes out unchanged and is never cut. *)
Theorem padStart_zeros s :
  padStart 6 "0" s = replicate (6 - String.length s) "0" ++ s
  /\ String.length (padStart 6 "0" s) = Nat.max 6 (String.length s).
Proof.
  unfold padStart, len.
  destruct (6 <=? Z.of_nat (String.length s)) eqn:E.
  - apply Z.leb_le in E.
    replace (6 - String.length s)%nat with 0%nat by lia.
    split; [reflexivity | lia].
  - apply Z.leb_gt in E. cbn [String.eqb].
    rewrite filler_zeros by reflexivity.
    replace (Z.to_nat (6 - Z.of_nat (String.length s)))
      with (6 - String.length s)%nat by lia.
    split; [reflexivity|].
    rewrite append_len, replicate_length. lia.
Qed.

(** X25.  The page's own upload check is at least as lenient as the
    first two gates of the default validator: a file within the
    validator's default size limit whose declared type is on its
    default MIME allowlist gets no error from the page. *)
Theorem page_check_admits_validator_types f :
  passesSize DEFAULT_OPTIONS f -> passesType DEFAULT_OPTIONS f ->
  pageUploadError f = None.
Proof.
  unfold passesSize, passesType, pageUploadError. intros Hs Ht.
  apply includes_In in Ht.
  assert (Hsup : typeSupported (type f) = true).
  { cbn [allowedTypes DEFAULT_OPTIONS In] in Ht.
    repeat (destruct Ht as [<-|Ht]; [reflexivity|]). contradiction. }
  rewrite Hsup. cbn [negb].
  cbn [maxSizeBytes DEFAULT_OPTIONS] in Hs.
  destruct (50 * 1024 * 1024 <? size f) eqn:E; [|reflexivity].
  apply Z.ltb_lt in E. lia.
Qed.

Lemma page_check_admits_validator_types_witness :
  passesSize DEFAULT_OPTIONS goodPdf /\ passesType DEFAULT_OPTIONS goodPdf
  /\ pageUploadError goodPdf = None.
Proof.
  assert (Hs : passesSize DEFAULT_OPTIONS goodPdf)
    by (unfold passesSize; cbn; lia).
  assert (Ht : passesType DEFAULT_OPTIONS goodPdf) by reflexivity.
  split; [exact Hs|]. split; [exact Ht|].
  exact (page_check_admits_validator_types goodPdf Hs Ht).
Defined.

End PageProperties.

(* ================================================================== *)
(** ** Properties of the stored history and of the stored log *)

Module HistoryProperties.

Lemma firstn_app_firstn {A} n (a b : list A) :
  firstn n (a ++ firstn n b) = firstn n (a ++ b).
Proof.
  rewrite !firstn_app, firstn_firstn. f_equal. f_equal. lia.
Qed.

Lemma createHistory_storage id now data stored :
  snd (createHistory true id now data stored)
  = Some (firstn 50 (newHistoryEntry id now data
                       :: match stored with Some l => l | None => [] end)).
Proof.
  unfold createHistory. cbn [snd]. f_equal.
  set (l := newHistoryEntry id now data :: _).
  destruct (50 <? List.length l)%nat eqn:E; [reflexivity|].
  apply Nat.ltb_ge in E. symmetry. apply firstn_all2, E.
Qed.

(** X26.  In a browser, [createHistory] puts the new entry first in the
    stored history, keeps the entries that were there in their order,
    and leaves at most 50 entries whatever the size of the history it
    found: only the oldest ones, at the end, are dropped. *)
Theorem createHistory_keeps_newest_fifty id now data stored :
  let existing := match stored with Some l => l | None => [] end in
  exists kept,
    snd (createHistory true id now data stored) = Some kept
    /\ kept = fst (createHistory true id now data stored)
              :: firstn 49 existing
    /\ (List.length kept <= 50)%nat
    /\ List.length kept = Nat.min 50 (S (List.length existing)).
Proof.
  intros existing. rewrite createHistory_storage. fold existing.
  eexists. split; [reflexivity|]. cbn [fst createHistory].
  change (firstn 50 (newHistoryEntry id now data :: existing))
    with (newHistoryEntry id now data :: firstn 49 existing).
  split; [reflexivity|]. cbn [List.length]. rewrite length_firstn. lia.
Qed.

(** X27.  Reading the history back after [createHistory] gives the
    created entry first, followed by what was stored before: once an
    entry has been created the two sample entries are never served
    again. *)
Theorem getHistory_after_createHistory id now data stored later userId :
  getHistory true later userId
    (snd (createHistory true id now data stored))
  = newHistoryEntry id now data
    :: firstn 49 (match stored with Some l => l | None => [] end).
Proof.
  rewrite createHistory_storage. reflexivity.
Qed.

Lemma createHistories_storage requests l :
  (List.length l <= 50)%nat ->
  createHistories requests (Some l)
  = Some (firstn 50
            (rev (List.map (fun r => newHistoryEntry (fst (fst r))
                                       (snd (fst r)) (snd r)) requests)
             ++ l)).
Proof.
  revert l. induction requests as [|[[id now] data] rest IH]; intros l Hl.
  - cbn [createHistories List.map rev app].
    rewrite firstn_all2 by exact Hl. reflexivity.
  - cbn [createHistories]. rewrite createHistory_storage.
    rewrite IH by (rewrite length_firstn; lia).
    cbn [List.map rev fst snd]. rewrite firstn_app_firstn.
    rewrite <- app_assoc. reflexivity.
Qed.

(** X28.  After any run of [createHistory] calls the stored history is
    the 50 most recent entries, newest first: the entries just created
    in reverse order of creation, then the older ones, cut at 50. *)
Theorem createHistories_keeps_most_recent requests stored :
  requests <> [] ->
  createHistories requests stored
  = Some (firstn 50
            (rev (List.map (fun r => newHistoryEntry (fst (fst r))
                                       (snd (fst r)) (snd r)) requests)
             ++ match stored with Some l => l | None => [] end)).
Proof.
  destruct requests as [|[[id now] data] rest]; [congruence|]. intros _.
  cbn [createHistories]. rewrite createHistory_storage.
  rewrite createHistories_storage by (rewrite length_firstn; lia).
  cbn [List.map rev fst snd]. rewrite firstn_app_firstn.
  rewrite <- app_assoc. reflexivity.
Qed.

Lemma createHistories_keeps_most_recent_witness :
  createHistories
    [("history_1", 1000, mkHistoryCreate 2 SessionCompleted 4000 None None);
     ("history_2", 2000, mkHistoryCreate 1 SessionFailed 900 None None)]
    None
  = Some [mkHistory "history_2" 2000 1 SessionFailed 900 None None;
          mkHistory "history_1" 1000 2 SessionCompleted 4000 None None].
Proof.
  exact (createHistories_keeps_most_recent
           [("history_1", 1000,
             mkHistoryCreate 2 SessionCompleted 4000 None None);
            ("history_2", 2000,
             mkHistoryCreate 1 SessionFailed 900 None None)]
           None ltac:(discriminate)).
Defined.

End HistoryProperties.

Module LoggerProperties.

Lemma lastN_length {A} n (l : list A) :
  List.length (lastN n l) = Nat.min n (List.length l).
Proof. unfold lastN. rewrite length_skipn. lia. Qed.

Lemma lastN_suffix {A} n (l : list A) :
  exists dropped : list A,
    l = (dropped ++ lastN n l)%list
    /\ List.length dropped = (List.length l - n)%nat.
Proof.
  unfold lastN. exists (firstn (List.length l - n) l). split.
  - symmetry. apply firstn_skipn.
  - rewrite length_firstn. lia.
Qed.

Lemma lastN_snoc {A} n (l : list A) x :
  exists front : list A, lastN (S n) (l ++ [x])%list = (front ++ [x])%list.
Proof.
  unfold lastN. rewrite length_app. cbn [List.length].
  replace (List.length l + 1 - S n)%nat with (List.length l - n)%nat by lia.
  rewrite skipn_app.
  replace (List.length l - n - List.length l)%nat with 0%nat by lia.
  cbn [skipn]. eauto.
Qed.

(** X29.  In a browser under development, [logger.log] on a readable
    stored log appends the new entry, keeps the earlier entries in
    their order and leaves at most 100 of them, dropping only from the
    old end; [getLogs] then returns that list, with the new entry
    last. *)
Theorem logger_log_keeps_last_hundred
    timestamp level message context st :
  storage st <> CorruptLogs ->
  let before := logger_getLogs true st in
  let after :=
    logger_getLogs true
      (logger_log true true timestamp level message context st) in
  let entry := mkLogEntry timestamp level message context None None in
  (List.length after <= 100)%nat
  /\ (exists front : list LogEntry, after = (front ++ [entry])%list)
  /\ (exists dropped : list LogEntry,
        (before ++ [entry])%list = (dropped ++ after)%list
        /\ List.length dropped = (List.length before + 1 - 100)%nat).
Proof.
  intros Hok before after entry.
  assert (Hafter : after = lastN 100 (before ++ [entry])).
  { unfold after, before, entry, logger_log, logger_getLogs. cbn [andb].
    destruct level; unfold logger_debug, logger_info, logger_warn,
      logger_error, emit; cbn [storage];
      destruct (storage st); try contradiction; reflexivity. }
  rewrite Hafter. split; [rewrite lastN_length; lia|]. split.
  - apply lastN_snoc.
  - destruct (lastN_suffix 100 (before ++ [entry])) as (dropped & Hd & Hl).
    exists dropped. split; [exact Hd|].
    rewrite Hl, length_app. reflexivity.
Qed.

Lemma logger_log_keeps_last_hundred_witness :
  logger_getLogs true
    (logger_log true true "2024-01-01T00:00:00.000Z" INFO "started" None
       (mkLoggerState [] NoLogs))
  = [mkLogEntry "2024-01-01T00:00:00.000Z" INFO "started" None None None]
  /\ exists front : list LogEntry,
       logger_getLogs true
         (logger_log true true "2024-01-01T00:00:00.000Z" INFO "started" None
            (mkLoggerState [] NoLogs))
       = (front ++ [mkLogEntry "2024-01-01T00:00:00.000Z" INFO "started"
                      None None None])%list.
Proof.
  split; [reflexivity|].
  exact (proj1 (proj2 (logger_log_keeps_last_hundred
                         "2024-01-01T00:00:00.000Z" INFO "started" None
                         (mkLoggerState [] NoLogs) ltac:(discriminate)))).
Defined.

End LoggerProperties.
